(** * generate_master_reference.py: the three-stage reference join

    A shallow embedding of the script that merges the SIRCA names file
    (primary), the SecurityReference file (secondary) and the MasterCompany
    file (tertiary) into one table, and the properties the specification
    states about it.

    Modelling decisions.
    - A CSV row (a Python [dict] from [csv.DictReader]) is a finite map from
      field names to values.  A value is a string or [None] ([DictReader]
      fills the missing cells of a short line with [None]); the source's
      [clean] tests for it, so the model keeps it.
    - Strings are [string]; [str.strip] and [str.upper] are modelled on the
      ASCII range.
    - The script is one top-level sequence of loops.  Each loop is a left
      fold over its collection, carrying the counter and the rows built so
      far; the definitions carry the names of the script's variables.
    - [main] ends where the output file has been written (section 7 of the
      script); the summary that follows it is [summary], and [script] is the
      two in sequence.  What the script prints is not modelled. *)

From stdpp Require Import gmap strings list fin_maps.
From Stdlib Require Import Ascii.

Open Scope string_scope.
Open Scope list_scope.
Open Scope stdpp_scope.

(** ** Values and rows *)

Inductive pyval : Type :=
  | PyNone
  | PyStr (s : string).

#[global] Instance pyval_eq_dec : EqDecision pyval.
Proof. solve_decision. Defined.

Abbreviation row := (gmap string pyval).

(** [r.get(k, "")]. *)
Definition get (r : row) (k : string) : pyval :=
  default (PyStr "") (r !! k).

(** Truth value of a cell in an [if]: [None] and [""] are false. *)
Definition truthy (v : pyval) : bool :=
  match v with
  | PyNone => false
  | PyStr s => negb (String.eqb s "")
  end.

(** Truth value of [d.get(key)] where the values of [d] are rows: [None] and
    the empty dict are false. *)
Definition row_truthy (o : option row) : bool :=
  match o with
  | Some r => bool_decide (r ≠ ∅)
  | None => false
  end.

(** ** String helpers: [str.strip], [str.upper] *)

Definition isspace (c : ascii) : bool :=
  let n := nat_of_ascii c in
  ((9 <=? n)%nat && (n <=? 13)%nat) || ((28 <=? n)%nat && (n <=? 32)%nat).

Fixpoint lstrip (s : string) : string :=
  match s with
  | EmptyString => EmptyString
  | String c s' => if isspace c then lstrip s' else s
  end.

Fixpoint rstrip (s : string) : string :=
  match s with
  | EmptyString => EmptyString
  | String c s' =>
      match rstrip s' with
      | EmptyString => if isspace c then EmptyString else String c EmptyString
      | t => String c t
      end
  end.

Definition strip (s : string) : string := rstrip (lstrip s).

Definition upper_char (c : ascii) : ascii :=
  let n := nat_of_ascii c in
  if (97 <=? n)%nat && (n <=? 122)%nat then ascii_of_nat (n - 32) else c.

Fixpoint upper (s : string) : string :=
  match s with
  | EmptyString => EmptyString
  | String c s' => String (upper_char c) (upper s')
  end.

(** ** Section 2 of the script: standardise join keys *)

Definition clean (val : pyval) : string :=
  match val with
  | PyNone => ""
  | PyStr s => strip s
  end.

(** [row[k] = clean(row.get(k, ""))]. *)
Definition clean_field (k : string) (r : row) : row :=
  <[k := PyStr (clean (get r k))]> r.

(** The bodies of the three standardisation loops. *)
Definition clean_sirca_row (r : row) : row :=
  clean_field "MS_SecurityID" (clean_field "MS_CompanyID" r).

Definition clean_secref_row (r : row) : row :=
  clean_field "ISIN" (clean_field "ShareClassId" (clean_field "CompanyId" r)).

Definition clean_master_row (r : row) : row :=
  clean_field "Symbol" (clean_field "ISIN" r).

Definition standardise_sirca (sirca : list row) : list row :=
  clean_sirca_row <$> sirca.

Definition standardise_secref (secref : list row) : list row :=
  clean_secref_row <$> secref.

Definition standardise_master (master : list row) : list row :=
  clean_master_row <$> master.

(** [row[k]] on a key field.  After standardisation the field is present and
    holds a string (lemmas [clean_sirca_row_items] and the like below), so the subscript never
    raises; elsewhere the function reads an absent or [None] cell as [""],
    which is also how [csv.DictWriter] writes such a cell. *)
Definition item (r : row) (k : string) : string :=
  match r !! k with
  | Some (PyStr s) => s
  | _ => ""
  end.

(** ** Section 3: step 1, the composite-key join *)

Definition sr_cols_all : list string :=
  [ "CompanyId"; "ShareClassId";
    "ISIN"; "CUSIP"; "Valoren";
    "ExchangeId"; "CurrencyId"; "MIC";
    "IPODate"; "IPOOfferPrice"; "IPOOfferPriceRange";
    "IsDepositaryReceipt"; "DepositaryReceiptRatio";
    "SecurityType";
    "ShareClassDescription"; "ShareClassStatus";
    "IsPrimaryShare"; "IsDividendReinvest"; "IsDirectInvest";
    "InvestmentId";
    "CommonShareSubType"; "ExchangeSubMarketGlobalId";
    "ConversionRatio"; "ActiveOrDelisted" ].

(** [[c for c in cols if c in header]]. *)
Definition keep_in (header cols : list string) : list string :=
  filter (λ c, c ∈ header) cols.

Definition sr_cols_keep (secref_cols : list string) : list string :=
  keep_in secref_cols sr_cols_all.

(** The two-part keys: [(row["CompanyId"], row["ShareClassId"])] on a
    secondary row, [(row["MS_CompanyID"], row["MS_SecurityID"])] on a primary
    row. *)
Definition sr_key (r : row) : string * string :=
  (item r "CompanyId", item r "ShareClassId").

Definition sirca_key (r : row) : string * string :=
  (item r "MS_CompanyID", item r "MS_SecurityID").

(** [key != ("", "")]. *)
Definition nonempty_pair (key : string * string) : bool :=
  bool_decide (key ≠ ("", "")).

(** The first-row-wins index on [(CompanyId, ShareClassId)]. *)
Definition sr_lookup (secref : list row) : gmap (string * string) row :=
  fold_left
    (λ idx r,
       let key := sr_key r in
       match idx !! key with
       | None => if nonempty_pair key then <[key := r]> idx else idx
       | Some _ => idx
       end)
    secref ∅.

(** [for col in cols: dst[prefix + col] = src.get(col, "")]. *)
Definition copy_cols (pre : string) (cols : list string) (src dst : row) : row :=
  fold_left (λ acc col, <[pre +:+ col := get src col]> acc) cols dst.

(** [for col in cols: dst[prefix + col] = ""]. *)
Definition blank_cols (pre : string) (cols : list string) (dst : row) : row :=
  fold_left (λ acc col, <[pre +:+ col := PyStr ""]> acc) cols dst.

(** The index probe of the step-1 loop body. *)
Definition step1_probe (idx : gmap (string * string) row) (r : row) : option row :=
  let key := sirca_key r in
  if nonempty_pair key then idx !! key else None.

(** The step-1 loop body: the new row and whether the counter is bumped. *)
Definition step1_row (idx : gmap (string * string) row) (cols : list string)
    (r : row) : row * bool :=
  let sr_row := step1_probe idx r in
  if row_truthy sr_row
  then (copy_cols "SR_" cols (default ∅ sr_row) r, true)
  else (blank_cols "SR_" cols r, false).

(** A counting loop over rows: the shape shared by the three join loops.
    Step 1 appends each new row to [merged]; steps 2 and 3 update the rows of
    [merged] in place, one after the other, which gives the same list. *)
Definition count_loop (body : row → row * bool) (rows : list row) : nat * list row :=
  fold_left
    (λ st r,
       let '(r', hit) := body r in
       ((if hit then S st.1 else st.1), st.2 ++ [r']))
    rows (0, []).

Definition step1 (secref_cols : list string) (secref sirca : list row)
    : nat * list row :=
  count_loop (step1_row (sr_lookup secref) (sr_cols_keep secref_cols)) sirca.

(** ** Section 4: step 2, the join to MasterCompany on ISIN *)

Definition mc_cols_all : list string :=
  [ "ISIN";
    "Identifier";
    "ACN"; "ABN";
    "HomeMarket";
    "GICSSector"; "GICSIndGrp";
    "ASXSector"; "ASXSubSector";
    "FormerNames";
    "TradingStatus";
    "ListDate"; "DelistDate"; "DelistReason";
    "Address"; "City"; "State"; "Postcode";
    "PhoneNumber"; "FaxNumber";
    "WebAddress"; "EmailAddress";
    "RegistryId"; "Template"; "ASX300" ].

Definition mc_cols_keep (master_cols : list string) : list string :=
  keep_in master_cols mc_cols_all.

(** Truth value of a string in an [if]. *)
Definition nonempty (s : string) : bool := negb (String.eqb s "").

(** [row["ISIN"]]. *)
Definition isin_key (r : row) : string := item r "ISIN".

(** The first-row-wins index on ISIN. *)
Definition mc_isin_lookup (master : list row) : gmap string row :=
  fold_left
    (λ idx r,
       let isin := isin_key r in
       if nonempty isin
       then match idx !! isin with
            | None => <[isin := r]> idx
            | Some _ => idx
            end
       else idx)
    master ∅.

(** The index probe of the step-2 loop body. *)
Definition step2_probe (idx : gmap string row) (mrow : row) : option row :=
  let sr_isin := get mrow "SR_ISIN" in
  if truthy sr_isin
  then match sr_isin with
       | PyStr s => idx !! s
       | PyNone => None
       end
  else None.

Definition step2_row (idx : gmap string row) (cols : list string)
    (mrow : row) : row * bool :=
  let mc_row := step2_probe idx mrow in
  if row_truthy mc_row
  then (copy_cols "MC_" cols (default ∅ mc_row) mrow, true)
  else (blank_cols "MC_" cols mrow, false).

Definition step2 (master_cols : list string) (master merged : list row)
    : nat * list row :=
  count_loop (step2_row (mc_isin_lookup master) (mc_cols_keep master_cols)) merged.

(** ** Section 5: step 3, the fallback join on Symbol *)

(** [row["Symbol"].upper()]. *)
Definition symbol_key (r : row) : string := upper (item r "Symbol").

(** The first-row-wins index on the uppercased Symbol. *)
Definition mc_symbol_lookup (master : list row) : gmap string row :=
  fold_left
    (λ idx r,
       let sym := symbol_key r in
       if nonempty sym
       then match idx !! sym with
            | None => <[sym := r]> idx
            | Some _ => idx
            end
       else idx)
    master ∅.

(** The guard of the step-3 loop body: the row is skipped ([continue]) when
    one of the three cells is non-empty. *)
Definition has_mc_data (mrow : row) : bool :=
  truthy (get mrow "MC_ABN") || truthy (get mrow "MC_ACN")
  || truthy (get mrow "MC_TradingStatus").

(** The index probe of the step-3 loop body. *)
Definition step3_probe (idx : gmap string row) (mrow : row) : option row :=
  let ticker := upper (clean (get mrow "CompanyTicker")) in
  if nonempty ticker then idx !! ticker else None.

Definition step3_row (idx : gmap string row) (cols : list string)
    (mrow : row) : row * bool :=
  if has_mc_data mrow then (mrow, false)
  else
    let mc_row := step3_probe idx mrow in
    if row_truthy mc_row
    then (copy_cols "MC_" cols (default ∅ mc_row) mrow, true)
    else (mrow, false).

Definition step3 (master_cols : list string) (master merged : list row)
    : nat * list row :=
  count_loop (step3_row (mc_symbol_lookup master) (mc_cols_keep master_cols)) merged.

(** ** Section 6: the output columns *)

Definition output_cols_fixed : list string :=
  [ "Gcode";
    "SR_CompanyId"; "SR_ShareClassId";
    "SR_ISIN"; "SR_CUSIP"; "SR_Valoren";
    "CompanyTicker"; "SecurityTicker";
    "MC_Identifier";
    "MA_Identifier";
    "FullCompanyName"; "AbbrevCompanyName";
    "GICSIndustry";
    "SIRCAIndustryClassCode"; "SIRCASectorCode";
    "EarliestListDate"; "LatestDelistDate";
    "CompanyDelistReasonCode"; "CompanyRelatedGCode";
    "CompanyDelistReasonComment";
    "SeniorSecurity"; "SecurityType";
    "AbreviatedSecurityDescription";
    "ListDate_YMD"; "DelistDate_YMD";
    "ListDate"; "DelistDate";
    "RecordCount";
    "AlteredLink";
    "SR_ExchangeId"; "SR_CurrencyId"; "SR_MIC";
    "SR_SecurityType";
    "SR_ShareClassDescription"; "SR_ShareClassStatus";
    "SR_IsPrimaryShare";
    "SR_IsDepositaryReceipt"; "SR_DepositaryReceiptRatio";
    "SR_IPODate"; "SR_IPOOfferPrice"; "SR_IPOOfferPriceRange";
    "SR_IsDividendReinvest"; "SR_IsDirectInvest";
    "SR_InvestmentId";
    "SR_CommonShareSubType"; "SR_ExchangeSubMarketGlobalId";
    "SR_ConversionRatio"; "SR_ActiveOrDelisted";
    "MC_ACN"; "MC_ABN";
    "MC_HomeMarket";
    "MC_GICSSector"; "MC_GICSIndGrp";
    "MC_ASXSector"; "MC_ASXSubSector";
    "MC_FormerNames";
    "MC_TradingStatus";
    "MC_ListDate"; "MC_DelistDate"; "MC_DelistReason";
    "MC_Address"; "MC_City"; "MC_State"; "MC_Postcode";
    "MC_PhoneNumber"; "MC_FaxNumber";
    "MC_WebAddress"; "MC_EmailAddress";
    "MC_RegistryId"; "MC_Template"; "MC_ASX300";
    "MS_CompanyID"; "MS_SecurityID";
    "MS_CompanyID2"; "MS_SecurityID2" ].

(** [set(merged[0].keys()) if merged else set()]. *)
Definition available (merged : list row) : gset string :=
  match merged with
  | m0 :: _ => dom m0
  | [] => ∅
  end.

Definition skip : gset string :=
  {[ "join_key"; "ListDate_DaysSince"; "DelistDate_DaysSince" ]}.

(** The filtered fixed list, then the loop that appends the SIRCA columns
    it misses.  [all_output_set] is taken once, before the loop. *)
Definition output_cols (sirca_cols : list string) (merged : list row)
    : list string :=
  let avail := available merged in
  let output_cols := filter (λ c, c ∈ avail) output_cols_fixed in
  let all_output_set : gset string := list_to_set output_cols in
  fold_left
    (λ out col,
       if bool_decide (col ∉ all_output_set) && bool_decide (col ∉ skip)
       then out ++ [col]
       else out)
    sirca_cols output_cols.

(** ** Section 7: the output file *)

(** What [csv.DictWriter] with [extrasaction="ignore"] puts in the file: the
    header, and for each row the cells of the header's columns, an absent
    cell (or [None]) being written as the empty string. *)
Record csv_file : Type := CsvFile {
  header : list string;
  records : list (list string)
}.

Definition write_csv (fieldnames : list string) (rows : list row) : csv_file :=
  {| header := fieldnames;
     records := (λ r, item r <$> fieldnames) <$> rows |}.

(** The cell of a written record under a column of the header. *)
Definition cell (f : csv_file) (rec : list string) (col : string) : option string :=
  snd <$> find (λ p, bool_decide (p.1 = col)) (zip (header f) rec).

(** ** The whole script, up to the written file *)

Record inputs : Type := Inputs {
  sirca : list row;
  sirca_cols : list string;
  secref : list row;
  secref_cols : list string;
  master : list row;
  master_cols : list string
}.

Record run : Type := Run {
  n_step1 : nat;
  n_step2 : nat;
  n_step3 : nat;
  merged : list row;
  output : csv_file
}.

Definition after_step1 (i : inputs) : nat * list row :=
  step1 (secref_cols i) (standardise_secref (secref i))
    (standardise_sirca (sirca i)).

Definition after_step2 (i : inputs) : nat * list row :=
  step2 (master_cols i) (standardise_master (master i)) (after_step1 i).2.

Definition after_step3 (i : inputs) : nat * list row :=
  step3 (master_cols i) (standardise_master (master i)) (after_step2 i).2.

Definition main (i : inputs) : run :=
  let merged := (after_step3 i).2 in
  {| n_step1 := (after_step1 i).1;
     n_step2 := (after_step2 i).1;
     n_step3 := (after_step3 i).1;
     merged := merged;
     output := write_csv (output_cols (sirca_cols i) merged) merged |}.

(** ** Section 8: the summary statistics *)

(** The exceptions the summary can raise. *)
Inductive pyerror : Type :=
  | KeyError (k : string)
  | ZeroDivisionError
  | TypeError.

#[global] Instance pyerror_eq_dec : EqDecision pyerror.
Proof. solve_decision. Defined.

#[global] Instance pyval_countable : Countable pyval.
Proof.
  refine (inj_countable'
            (λ v, match v with PyNone => None | PyStr s => Some s end)
            (λ o, match o with None => PyNone | Some s => PyStr s end) _).
  by intros [].
Defined.

(** A computation that returns a value or raises. *)
Abbreviation result := (sum pyerror).

#[global] Instance result_ret : MRet result := λ A x, inr x.
#[global] Instance result_bind : MBind result :=
  λ A B f x, match x with inl e => inl e | inr a => f a end.

(** [set(r["Gcode"] for r in merged)]: the subscript raises [KeyError] at the
    first row that has no such field. *)
Definition gcodes (merged : list row) : result (gset pyval) :=
  fold_left
    (λ acc r,
       s ← acc;
       match r !! "Gcode" with
       | Some v => mret ({[ v ]} ∪ s)
       | None => inl (KeyError "Gcode")
       end)
    merged (mret ∅).

(** [sum(1 for r in merged if cond(r))]. *)
Definition count_rows (cond : row → bool) (rows : list row) : nat :=
  length (filter (λ r, cond r = true) rows).

(** [Counter(vals)]. *)
Definition counter (vals : list pyval) : gmap pyval nat :=
  fold_left (λ c v, <[v := S (default 0 (c !! v))]> c) vals ∅.

(** [sorted(c.items())] compares the keys; it raises [TypeError] when it has
    to compare [None] with a string, that is when [None] is a key and is not
    the only one. *)
Definition sortable (c : gmap pyval nat) : bool :=
  negb (bool_decide (PyNone ∈ dom c) && (2 <=? size c)%nat).

Record stats : Type := Stats {
  n_gcodes : nat;
  n_sr : nat;
  n_mc : nat;
  n_isin : nat;
  status_counts : gmap pyval nat;
  active_counts : gmap pyval nat
}.

(** Section 8 of the script, without the text it prints: the numbers it
    computes, in the order it computes them, and the exception that ends
    it.  The percentages divide by [len(merged)]. *)
Definition summary (merged : list row) : result stats :=
  g ← gcodes merged;
  let n_sr := count_rows (λ r, truthy (get r "SR_CompanyId")) merged in
  let n_mc := count_rows has_mc_data merged in
  let n_isin := count_rows (λ r, truthy (get r "SR_ISIN")) merged in
  if bool_decide (length merged = 0) then inl ZeroDivisionError
  else
    let status_counts := counter ((λ r, get r "MC_TradingStatus") <$> merged) in
    if negb (sortable status_counts) then inl TypeError
    else
      let active_counts :=
        counter ((λ r, get r "SR_ActiveOrDelisted") <$> merged) in
      if negb (sortable active_counts) then inl TypeError
      else
        mret {| n_gcodes := size g;
                n_sr := n_sr;
                n_mc := n_mc;
                n_isin := n_isin;
                status_counts := status_counts;
                active_counts := active_counts |}.

(** The script from its inputs to its end: the run up to the written file,
    and how the summary that follows it ends. *)
Definition script (i : inputs) : run * result stats :=
  (main i, summary (merged (main i))).

(** ** Notions used to state the properties *)

(** [r] is the first row of [rows], in input order, whose key is [k]. *)
Definition first_at {K : Type} (key : row → K) (k : K) (rows : list row)
    (r : row) : Prop :=
  ∃ pre post, rows = pre ++ r :: post ∧ key r = k ∧ ∀ x, x ∈ pre → key x ≠ k.

(** The same, as a search. *)
Definition first_with {K : Type} `{EqDecision K} (key : row → K) (k : K)
    (rows : list row) : option row :=
  find (λ r, bool_decide (key r = k)) rows.

(** One step of an insert-if-absent index construction, with the key test
    first; the three index loops of the script are instances of it. *)
Definition index_step {K : Type} `{Countable K} (key : row → K) (ok : K → bool)
    (idx : gmap K row) (r : row) : gmap K row :=
  if ok (key r)
  then match idx !! key r with
       | None => <[key r := r]> idx
       | Some _ => idx
       end
  else idx.

(** The common shape of [copy_cols] and [blank_cols]: each column [col] of
    [cols] in turn sets the field [pre + col] to [v col]. *)
Definition fill_cols (pre : string) (v : string → pyval) (cols : list string)
    (dst : row) : row :=
  fold_left (λ acc col, <[pre +:+ col := v col]> acc) cols dst.

(** The field names [pre + col] for the kept columns. *)
Definition prefixed (pre : string) (cols : list string) : gset string :=
  list_to_set ((λ c, pre +:+ c) <$> cols).

(** The field names of a merged row whose primary row has the fields [S]. *)
Definition merged_schema (i : inputs) (S : gset string) : gset string :=
  S ∪ {[ "MS_CompanyID"; "MS_SecurityID" ]}
    ∪ prefixed "SR_" (sr_cols_keep (secref_cols i))
    ∪ prefixed "MC_" (mc_cols_keep (master_cols i)).

(** The schema of the merged collection as the script reads it: the field
    names of the first merged row, and no name at all when there is no row. *)
Definition run_schema (i : inputs) : gset string :=
  match sirca i with
  | p :: _ => merged_schema i (dom p)
  | [] => ∅
  end.

(** What each of the three loops does to one primary row [p], and whether it
    counts it as a match. *)
Definition stage1 (i : inputs) (p : row) : row * bool :=
  step1_row (sr_lookup (standardise_secref (secref i)))
    (sr_cols_keep (secref_cols i)) (clean_sirca_row p).

Definition stage2 (i : inputs) (p : row) : row * bool :=
  step2_row (mc_isin_lookup (standardise_master (master i)))
    (mc_cols_keep (master_cols i)) (stage1 i p).1.

Definition stage3 (i : inputs) (p : row) : row * bool :=
  step3_row (mc_symbol_lookup (standardise_master (master i)))
    (mc_cols_keep (master_cols i)) (stage2 i p).1.

(** The number of rows a loop body counts. *)
Definition hits {A : Type} (f : A → row * bool) (rows : list A) : nat :=
  length (filter (λ r, (f r).2 = true) rows).

(** A string with a first character has a non-space first character. *)
Definition starts_clean (s : string) : Prop :=
  match s with
  | EmptyString => True
  | String c _ => isspace c = false
  end.

(** A string made of whitespace only (the empty string is one). *)
Fixpoint all_space (s : string) : bool :=
  match s with
  | EmptyString => true
  | String c s' => isspace c && all_space s'
  end.

(** A cell that [clean] turns into the empty string: [None] or whitespace. *)
Definition blank_cell (v : pyval) : bool :=
  match v with
  | PyNone => true
  | PyStr s => all_space s
  end.

(** A row none of whose cells is [None]. *)
Definition str_only (r : row) : Prop := ∀ k, r !! k ≠ Some PyNone.

(** ** Concrete inputs *)

(** The fallback scenario of the specification: one primary row, no
    secondary row (whatever the secondary header is), one tertiary row. *)
Definition scenario_primary : row :=
  {[ "MS_CompanyID" := PyStr "1"; "MS_SecurityID" := PyStr "A";
     "CompanyTicker" := PyStr "xyz" ]}.

Definition scenario_tertiary : row :=
  {[ "Symbol" := PyStr "XYZ"; "ABN" := PyStr "123" ]}.

Definition scenario (secref_cols : list string) : inputs :=
  {| sirca := [scenario_primary];
     sirca_cols := ["MS_CompanyID"; "MS_SecurityID"; "CompanyTicker"];
     secref := [];
     secref_cols := secref_cols;
     master := [scenario_tertiary];
     master_cols := ["Symbol"; "ABN"] |}.

(** A primary row that joins on ISIN to a tertiary row whose ABN, ACN and
    TradingStatus cells are empty, while its ticker is the Symbol of another
    tertiary row. *)
Definition isin_matched_primary : row :=
  {[ "MS_CompanyID" := PyStr "1"; "MS_SecurityID" := PyStr "A";
     "CompanyTicker" := PyStr "XYZ" ]}.

Definition isin_matched_secondary : row :=
  {[ "CompanyId" := PyStr "1"; "ShareClassId" := PyStr "A";
     "ISIN" := PyStr "AU000000AAA1" ]}.

Definition tertiary_by_isin : row :=
  {[ "ISIN" := PyStr "AU000000AAA1"; "Symbol" := PyStr "AAA";
     "Identifier" := PyStr "first"; "ABN" := PyStr ""; "ACN" := PyStr "";
     "TradingStatus" := PyStr "" ]}.

Definition tertiary_by_symbol : row :=
  {[ "ISIN" := PyStr "AU000000XYZ2"; "Symbol" := PyStr "XYZ";
     "Identifier" := PyStr "second"; "ABN" := PyStr "51824753556";
     "ACN" := PyStr ""; "TradingStatus" := PyStr "Active" ]}.

Definition isin_matched_input : inputs :=
  {| sirca := [isin_matched_primary];
     sirca_cols := ["MS_CompanyID"; "MS_SecurityID"; "CompanyTicker"];
     secref := [isin_matched_secondary];
     secref_cols := ["CompanyId"; "ShareClassId"; "ISIN"];
     master := [tertiary_by_isin; tertiary_by_symbol];
     master_cols :=
       ["ISIN"; "Symbol"; "Identifier"; "ABN"; "ACN"; "TradingStatus"] |}.

(** A secondary row whose composite key has one empty part, and a primary
    row with the same key. *)
Definition half_key_secondary : row :=
  {[ "CompanyId" := PyStr "A"; "ShareClassId" := PyStr "";
     "ISIN" := PyStr "AU000000HLF0" ]}.

Definition half_key_primary : row :=
  {[ "MS_CompanyID" := PyStr "A"; "MS_SecurityID" := PyStr "";
     "CompanyTicker" := PyStr "HLF" ]}.

(** A tertiary row whose Symbol is in mixed case, and merged rows that have
    only a ticker. *)
Definition mixed_case_tertiary : row :=
  {[ "ISIN" := PyStr ""; "Symbol" := PyStr "Abc"; "ABN" := PyStr "42" ]}.

Definition ticker_row (t : string) : row := {[ "CompanyTicker" := PyStr t ]}.

(** Two secondary rows with the same composite key and different ISINs, and
    a primary row with that key. *)
Definition duplicate_first : row :=
  {[ "CompanyId" := PyStr "5"; "ShareClassId" := PyStr "B";
     "ISIN" := PyStr "AU000000ONE1" ]}.

Definition duplicate_second : row :=
  {[ "CompanyId" := PyStr "5"; "ShareClassId" := PyStr "B";
     "ISIN" := PyStr "AU000000TWO2" ]}.

Definition duplicate_primary : row :=
  {[ "MS_CompanyID" := PyStr "5"; "MS_SecurityID" := PyStr "B";
     "CompanyTicker" := PyStr "DUP" ]}.

Definition duplicate_input : inputs :=
  {| sirca := [duplicate_primary];
     sirca_cols := ["MS_CompanyID"; "MS_SecurityID"; "CompanyTicker"];
     secref := [duplicate_first; duplicate_second];
     secref_cols := ["CompanyId"; "ShareClassId"; "ISIN"];
     master := [];
     master_cols := [] |}.

(** A primary row whose key fields are blank, and an index that (unlike any
    index the script builds) has an entry under the empty pair. *)
Definition blank_key_primary : row :=
  {[ "MS_CompanyID" := PyStr "  "; "MS_SecurityID" := PyNone;
     "CompanyTicker" := PyStr " " ]}.

Definition index_with_empty_pair : gmap (string * string) row :=
  {[ ("", "") := duplicate_first ]}.

(** An input with a primary header and no primary row. *)
Definition empty_primary_input : inputs :=
  {| sirca := [];
     sirca_cols := ["Gcode"; "join_key"; "CompanyTicker"; "Extra"];
     secref := [isin_matched_secondary];
     secref_cols := ["CompanyId"; "ShareClassId"; "ISIN"];
     master := [tertiary_by_isin];
     master_cols := ["ISIN"; "Symbol"; "ABN"] |}.

(** Two primary rows with the same field names, the second of which matches
    nowhere. *)
Definition unmatched_primary : row :=
  {[ "MS_CompanyID" := PyStr "7"; "MS_SecurityID" := PyStr "Z";
     "CompanyTicker" := PyStr "" ]}.

Definition two_row_input : inputs :=
  {| sirca := [isin_matched_primary; unmatched_primary];
     sirca_cols := ["MS_CompanyID"; "MS_SecurityID"; "CompanyTicker"];
     secref := [isin_matched_secondary];
     secref_cols := ["CompanyId"; "ShareClassId"; "ISIN"];
     master := [tertiary_by_isin; tertiary_by_symbol];
     master_cols :=
       ["ISIN"; "Symbol"; "Identifier"; "ABN"; "ACN"; "TradingStatus"] |}.

(** A primary row with a [Gcode], joined by steps 1 and 2 to a tertiary row
    that has an ABN. *)
Definition gcode_primary : row :=
  {[ "Gcode" := PyStr "xyz1"; "MS_CompanyID" := PyStr "1";
     "MS_SecurityID" := PyStr "A"; "CompanyTicker" := PyStr "XYZ" ]}.

Definition xyz_secondary : row :=
  {[ "CompanyId" := PyStr "1"; "ShareClassId" := PyStr "A";
     "ISIN" := PyStr "AU000000XYZ2"; "ActiveOrDelisted" := PyStr "Active" ]}.

Definition identified_input : inputs :=
  {| sirca := [gcode_primary];
     sirca_cols := ["Gcode"; "MS_CompanyID"; "MS_SecurityID"; "CompanyTicker"];
     secref := [xyz_secondary];
     secref_cols := ["CompanyId"; "ShareClassId"; "ISIN"; "ActiveOrDelisted"];
     master := [tertiary_by_symbol];
     master_cols :=
       ["ISIN"; "Symbol"; "Identifier"; "ABN"; "ACN"; "TradingStatus"] |}.

(** * Properties *)

(** ** Standardised key fields *)

Example strip_example : strip "  AU 0001 	" = "AU 0001".
Proof. reflexivity. Qed.

Example upper_example : upper "bhp.Ax1" = "BHP.AX1".
Proof. reflexivity. Qed.

Lemma clean_field_sets (k : string) (r : row) :
  ∃ s, clean_field k r !! k = Some (PyStr s).
Proof. unfold clean_field. rewrite lookup_insert_eq. eauto. Qed.

Lemma clean_field_keeps (k k' : string) (r : row) :
  (∃ s, r !! k' = Some (PyStr s)) → ∃ s, clean_field k r !! k' = Some (PyStr s).
Proof.
  intros [s Hr]. destruct (decide (k = k')) as [->|Hne].
  - apply clean_field_sets.
  - unfold clean_field. rewrite lookup_insert_ne by done. eauto.
Qed.

Lemma item_of_str (r : row) (k : string) :
  (∃ s, r !! k = Some (PyStr s)) → r !! k = Some (PyStr (item r k)).
Proof. intros [s Hs]. unfold item. by rewrite Hs. Qed.

(** The subscripts [row["..."]] of the index loops and of the step-1 loop
    read fields that standardisation has set to strings. *)
Lemma clean_sirca_row_items (p : row) (k : string) :
  k ∈ ["MS_CompanyID"; "MS_SecurityID"] →
  clean_sirca_row p !! k = Some (PyStr (item (clean_sirca_row p) k)).
Proof.
  intros Hk. apply item_of_str. unfold clean_sirca_row.
  repeat (apply elem_of_cons in Hk as [->|Hk]).
  - apply clean_field_keeps, clean_field_sets.
  - apply clean_field_sets.
  - by apply elem_of_nil in Hk.
Qed.

Lemma clean_secref_row_items (r : row) (k : string) :
  k ∈ ["CompanyId"; "ShareClassId"; "ISIN"] →
  clean_secref_row r !! k = Some (PyStr (item (clean_secref_row r) k)).
Proof.
  intros Hk. apply item_of_str. unfold clean_secref_row.
  repeat (apply elem_of_cons in Hk as [->|Hk]).
  - apply clean_field_keeps, clean_field_keeps, clean_field_sets.
  - apply clean_field_keeps, clean_field_sets.
  - apply clean_field_sets.
  - by apply elem_of_nil in Hk.
Qed.

Lemma clean_master_row_items (r : row) (k : string) :
  k ∈ ["ISIN"; "Symbol"] →
  clean_master_row r !! k = Some (PyStr (item (clean_master_row r) k)).
Proof.
  intros Hk. apply item_of_str. unfold clean_master_row.
  repeat (apply elem_of_cons in Hk as [->|Hk]).
  - apply clean_field_keeps, clean_field_sets.
  - apply clean_field_sets.
  - by apply elem_of_nil in Hk.
Qed.

(** ** The counting loop *)

Section CountLoop.
Variable body : row → row * bool.

Lemma count_loop_from (rows : list row) (n : nat) (acc : list row) :
  fold_left
    (λ st r,
       let '(r', hit) := body r in
       ((if hit then S st.1 else st.1), st.2 ++ [r']))
    rows (n, acc)
  = (n + hits body rows, acc ++ ((λ r, (body r).1) <$> rows)).
Proof.
  unfold hits. revert n acc.
  induction rows as [|r rows IH]; intros n acc; simpl.
  - by rewrite Nat.add_0_r, app_nil_r.
  - destruct (body r) as [r' hit] eqn:Hb; simpl. rewrite IH.
    rewrite filter_cons, Hb; simpl.
    rewrite <- app_assoc; simpl.
    destruct hit; simpl; f_equal; lia.
Qed.

Lemma count_loop_rows (rows : list row) :
  (count_loop body rows).2 = (λ r, (body r).1) <$> rows.
Proof. unfold count_loop. by rewrite count_loop_from. Qed.

Lemma count_loop_count (rows : list row) :
  (count_loop body rows).1 = hits body rows.
Proof. unfold count_loop. by rewrite count_loop_from. Qed.
End CountLoop.

(** ** First-row-wins indexes *)

Lemma fold_left_pointwise {A B : Type} (f g : A → B → A) (l : list B) (a : A) :
  (∀ x y, f x y = g x y) → fold_left f l a = fold_left g l a.
Proof.
  intros Hfg. revert a. induction l as [|b l IH]; intros a; simpl; [done|].
  by rewrite Hfg, IH.
Qed.

Section FirstWins.
Context {K : Type} `{Countable K}.
Variables (key : row → K) (ok : K → bool).

Lemma index_fold_lookup (rows : list row) (idx : gmap K row) (k : K) :
  fold_left (index_step key ok) rows idx !! k
  = match idx !! k with
    | Some r => Some r
    | None => if ok k then first_with key k rows else None
    end.
Proof.
  revert idx. induction rows as [|r rows IH]; intros idx; simpl.
  - destruct (idx !! k); [done|]. by destruct (ok k).
  - rewrite IH. unfold index_step, first_with. simpl.
    destruct (decide (key r = k)) as [<-|Hne].
    + rewrite bool_decide_eq_true_2 by done. destruct (ok (key r)) eqn:Hok.
      * destruct (idx !! key r) eqn:Hk; [by rewrite Hk|].
        by rewrite lookup_insert_eq.
      * by destruct (idx !! key r).
    + rewrite bool_decide_eq_false_2 by done.
      destruct (ok (key r)); [|done].
      destruct (idx !! key r); [done|]. by rewrite lookup_insert_ne.
Qed.

Lemma index_lookup (rows : list row) (k : K) :
  fold_left (index_step key ok) rows ∅ !! k
  = if ok k then first_with key k rows else None.
Proof. by rewrite index_fold_lookup, lookup_empty. Qed.

Lemma first_with_first_at (rows : list row) (k : K) (r : row) :
  first_with key k rows = Some r ↔ first_at key k rows r.
Proof.
  unfold first_with, first_at. split.
  - induction rows as [|a rows IH]; simpl; [done|].
    case_bool_decide as Hk.
    + intros [= ->]. exists [], rows. split_and!; [done..|].
      intros x Hx. by apply elem_of_nil in Hx.
    + intros Hf. destruct (IH Hf) as (pre & post & -> & Hr & Hpre).
      exists (a :: pre), post. split_and!; [done..|].
      intros x [->|Hx]%elem_of_cons; auto.
  - intros (pre & post & -> & Hr & Hpre).
    induction pre as [|a pre IH]; simpl.
    + by rewrite bool_decide_eq_true_2.
    + rewrite bool_decide_eq_false_2 by (apply Hpre; left).
      apply IH. intros x Hx. apply Hpre. by right.
Qed.

Lemma first_with_key (rows : list row) (k : K) (r : row) :
  first_with key k rows = Some r → key r = k ∧ r ∈ rows.
Proof.
  intros (pre & post & -> & Hr & _)%first_with_first_at. split; [done|].
  apply elem_of_app. right. left.
Qed.
End FirstWins.

Lemma guarded_Some {A : Type} (b : bool) (P : Prop) (o : option A) (r : A) :
  (b = true ↔ P) → (if b then o else None) = Some r ↔ P ∧ o = Some r.
Proof.
  intros Hb. destruct b.
  - split; [intros Ho; split; [by apply Hb|done]|by intros [_ Ho]].
  - split; [done|]. intros [HP _]. by apply Hb in HP.
Qed.

Lemma sr_lookup_lookup (secref : list row) (k : string * string) :
  sr_lookup secref !! k
  = if nonempty_pair k then first_with sr_key k secref else None.
Proof.
  rewrite <- index_lookup. f_equal. unfold sr_lookup.
  apply fold_left_pointwise. intros idx r. unfold index_step.
  destruct (idx !! sr_key r); [|done]. by destruct (nonempty_pair _).
Qed.

Lemma mc_isin_lookup_lookup (master : list row) (k : string) :
  mc_isin_lookup master !! k
  = if nonempty k then first_with isin_key k master else None.
Proof. by rewrite <- index_lookup. Qed.

Lemma mc_symbol_lookup_lookup (master : list row) (k : string) :
  mc_symbol_lookup master !! k
  = if nonempty k then first_with symbol_key k master else None.
Proof. by rewrite <- index_lookup. Qed.

Lemma nonempty_pair_true (k : string * string) :
  nonempty_pair k = true ↔ k ≠ ("", "").
Proof. unfold nonempty_pair. by rewrite bool_decide_eq_true. Qed.

Lemma nonempty_true (s : string) : nonempty s = true ↔ s ≠ "".
Proof.
  unfold nonempty. rewrite negb_true_iff.
  destruct (String.eqb_spec s ""); naive_solver.
Qed.

(** ** Filling the prefixed columns of a row *)

Lemma append_inj (pre a b : string) : pre +:+ a = pre +:+ b → a = b.
Proof. induction pre as [|c pre IH]; simpl; [done|]. intros [= ?]. auto. Qed.

Lemma elem_of_prefixed (pre : string) (cols : list string) (k : string) :
  k ∈ prefixed pre cols ↔ ∃ c, k = pre +:+ c ∧ c ∈ cols.
Proof. unfold prefixed. rewrite elem_of_list_to_set, list_elem_of_fmap. done. Qed.

(** A name built with one prefix is not among the names built with another;
    a decidable closed fact is settled by evaluation. *)
Ltac not_prefixed :=
  let Heq := fresh in intros (? & Heq & _)%elem_of_prefixed; discriminate Heq.

Ltac by_compute := apply (bool_decide_unpack _); vm_compute; exact I.

Section Fill.
Variables (pre : string) (v : string → pyval).

Lemma fill_cols_cons (a : string) (cols : list string) (dst : row) :
  fill_cols pre v (a :: cols) dst
  = fill_cols pre v cols (<[pre +:+ a := v a]> dst).
Proof. reflexivity. Qed.

Lemma prefixed_cons (a : string) (cols : list string) :
  prefixed pre (a :: cols) = {[ pre +:+ a ]} ∪ prefixed pre cols.
Proof. reflexivity. Qed.

Lemma fill_lookup_other (cols : list string) (dst : row) (k : string) :
  k ∉ prefixed pre cols → fill_cols pre v cols dst !! k = dst !! k.
Proof.
  revert dst. induction cols as [|a cols IH]; intros dst Hk; [done|].
  rewrite prefixed_cons, not_elem_of_union, not_elem_of_singleton in Hk.
  destruct Hk as [Hka Hk].
  rewrite fill_cols_cons, IH by done. by apply lookup_insert_ne.
Qed.

Lemma fill_lookup_col (cols : list string) (dst : row) (c : string) :
  c ∈ cols → fill_cols pre v cols dst !! (pre +:+ c) = Some (v c).
Proof.
  revert dst. induction cols as [|a cols IH]; intros dst Hc.
  - by apply elem_of_nil in Hc.
  - rewrite fill_cols_cons.
    destruct (decide (c ∈ cols)) as [Hin|Hout]; [by apply IH|].
    apply elem_of_cons in Hc as [->|Hc]; [|done].
    rewrite fill_lookup_other.
    + apply lookup_insert_eq.
    + intros (c & Heq%append_inj & Hc)%elem_of_prefixed. by subst.
Qed.

Lemma fill_dom (cols : list string) (dst : row) :
  dom (fill_cols pre v cols dst) = dom dst ∪ prefixed pre cols.
Proof.
  revert dst. induction cols as [|a cols IH]; intros dst.
  - change (prefixed pre []) with (∅ : gset string).
    by rewrite (right_id_L ∅ (∪)).
  - rewrite fill_cols_cons, IH, dom_insert_L, prefixed_cons.
    rewrite (comm_L (∪) {[ pre +:+ a ]} (dom dst)).
    by rewrite (assoc_L (∪)).
Qed.
End Fill.

Lemma copy_cols_other pre cols src dst k :
  k ∉ prefixed pre cols → copy_cols pre cols src dst !! k = dst !! k.
Proof. apply (fill_lookup_other pre (get src)). Qed.

Lemma copy_cols_col pre cols src dst c :
  c ∈ cols → copy_cols pre cols src dst !! (pre +:+ c) = Some (get src c).
Proof. apply (fill_lookup_col pre (get src)). Qed.

Lemma copy_cols_dom pre cols src dst :
  dom (copy_cols pre cols src dst) = dom dst ∪ prefixed pre cols.
Proof. apply (fill_dom pre (get src)). Qed.

Lemma blank_cols_other pre cols dst k :
  k ∉ prefixed pre cols → blank_cols pre cols dst !! k = dst !! k.
Proof. apply (fill_lookup_other pre (λ _, PyStr "")). Qed.

Lemma blank_cols_col pre cols dst c :
  c ∈ cols → blank_cols pre cols dst !! (pre +:+ c) = Some (PyStr "").
Proof. apply (fill_lookup_col pre (λ _, PyStr "")). Qed.

Lemma blank_cols_dom pre cols dst :
  dom (blank_cols pre cols dst) = dom dst ∪ prefixed pre cols.
Proof. apply (fill_dom pre (λ _, PyStr "")). Qed.

(** ** The script as one pass per primary row *)

Lemma hits_fmap {A B : Type} (f : B → row * bool) (g : A → B) (l : list A) :
  hits f (g <$> l) = hits (f ∘ g) l.
Proof.
  unfold hits, compose. induction l as [|a l IH]; [done|].
  rewrite fmap_cons, !filter_cons.
  destruct (decide ((f (g a)).2 = true)); simpl; by rewrite IH.
Qed.

Lemma after_step1_rows (i : inputs) :
  (after_step1 i).2 = (λ p, (stage1 i p).1) <$> sirca i.
Proof.
  unfold after_step1, step1, standardise_sirca.
  by rewrite count_loop_rows, <- list_fmap_compose.
Qed.

Lemma after_step2_rows (i : inputs) :
  (after_step2 i).2 = (λ p, (stage2 i p).1) <$> sirca i.
Proof.
  unfold after_step2, step2.
  by rewrite count_loop_rows, after_step1_rows, <- list_fmap_compose.
Qed.

Lemma after_step3_rows (i : inputs) :
  (after_step3 i).2 = (λ p, (stage3 i p).1) <$> sirca i.
Proof.
  unfold after_step3, step3.
  by rewrite count_loop_rows, after_step2_rows, <- list_fmap_compose.
Qed.

Lemma merged_main (i : inputs) :
  merged (main i) = (λ p, (stage3 i p).1) <$> sirca i.
Proof. apply after_step3_rows. Qed.

Lemma counters_main (i : inputs) :
  n_step1 (main i) = hits (stage1 i) (sirca i)
  ∧ n_step2 (main i) = hits (stage2 i) (sirca i)
  ∧ n_step3 (main i) = hits (stage3 i) (sirca i).
Proof.
  split_and!.
  - change (n_step1 (main i)) with (after_step1 i).1.
    unfold after_step1, step1, standardise_sirca.
    by rewrite count_loop_count, hits_fmap.
  - change (n_step2 (main i)) with (after_step2 i).1.
    unfold after_step2, step2.
    by rewrite count_loop_count, after_step1_rows, hits_fmap.
  - change (n_step3 (main i)) with (after_step3 i).1.
    unfold after_step3, step3.
    by rewrite count_loop_count, after_step2_rows, hits_fmap.
Qed.

Lemma merged_lookup (i : inputs) (n : nat) (m : row) :
  merged (main i) !! n = Some m ↔ ∃ p, sirca i !! n = Some p ∧ m = (stage3 i p).1.
Proof. rewrite merged_main, list_lookup_fmap, fmap_Some. reflexivity. Qed.

Lemma header_main (i : inputs) :
  header (output (main i)) = output_cols (sirca_cols i) (merged (main i)).
Proof. reflexivity. Qed.

Lemma records_main (i : inputs) :
  records (output (main i))
  = (λ r, item r <$> header (output (main i))) <$> merged (main i).
Proof. reflexivity. Qed.

(** C2. Row conservation: whatever the three collections are, the merged
    list and the written file have one row per primary row, at the same
    position; the written record holds the merged row's cells under the
    header's columns. *)
Theorem row_conservation (i : inputs) :
  length (merged (main i)) = length (sirca i)
  ∧ length (records (output (main i))) = length (sirca i)
  ∧ ∀ n p, sirca i !! n = Some p →
      merged (main i) !! n = Some (stage3 i p).1
      ∧ records (output (main i)) !! n
        = Some (item (stage3 i p).1 <$> header (output (main i))).
Proof.
  assert (Hlen : length (merged (main i)) = length (sirca i)).
  { by rewrite merged_main, length_fmap. }
  split_and!; [done| |].
  - rewrite records_main, length_fmap. apply Hlen.
  - intros n p Hp.
    assert (Hm : merged (main i) !! n = Some (stage3 i p).1).
    { apply merged_lookup. eauto. }
    split; [done|]. by rewrite records_main, list_lookup_fmap, Hm.
Qed.

(** ** The probes of the three loop bodies *)

Lemma step1_probe_first (secref : list row) (p : row) :
  step1_probe (sr_lookup secref) p
  = if nonempty_pair (sirca_key p) then first_with sr_key (sirca_key p) secref
    else None.
Proof.
  unfold step1_probe. rewrite sr_lookup_lookup. by destruct (nonempty_pair _).
Qed.

Lemma truthy_true (v : pyval) : truthy v = true ↔ ∃ s, v = PyStr s ∧ s ≠ "".
Proof.
  destruct v as [|s]; simpl.
  - split; [done|]. by intros (? & ? & ?).
  - change (nonempty s = true ↔ ∃ s0, PyStr s = PyStr s0 ∧ s0 ≠ "").
    rewrite nonempty_true. split.
    + intros Hs. by exists s.
    + by intros (s' & [= <-] & Hs).
Qed.

Lemma step2_probe_first (master : list row) (m : row) :
  step2_probe (mc_isin_lookup master) m
  = match get m "SR_ISIN" with
    | PyStr s => if nonempty s then first_with isin_key s master else None
    | PyNone => None
    end.
Proof.
  unfold step2_probe. destruct (get m "SR_ISIN") as [|s]; simpl; [done|].
  rewrite mc_isin_lookup_lookup. unfold nonempty. by destruct (negb _).
Qed.

Lemma step3_probe_first (master : list row) (m : row) :
  step3_probe (mc_symbol_lookup master) m
  = let ticker := upper (clean (get m "CompanyTicker")) in
    if nonempty ticker then first_with symbol_key ticker master else None.
Proof.
  unfold step3_probe. rewrite mc_symbol_lookup_lookup. simpl.
  by destruct (nonempty _).
Qed.

(** Each of the three indexes holds, under a key, the first row of its
    collection (in input order) that has this key, and the probe of each
    loop body returns that row. *)
Lemma lookups_first_at (secref master : list row) :
  (∀ k r, sr_lookup secref !! k = Some r
          ↔ k ≠ ("", "") ∧ first_at sr_key k secref r)
  ∧ (∀ k r, mc_isin_lookup master !! k = Some r
            ↔ k ≠ "" ∧ first_at isin_key k master r)
  ∧ (∀ k r, mc_symbol_lookup master !! k = Some r
            ↔ k ≠ "" ∧ first_at symbol_key k master r)
  ∧ (∀ p r, step1_probe (sr_lookup secref) p = Some r
            ↔ sirca_key p ≠ ("", "") ∧ first_at sr_key (sirca_key p) secref r)
  ∧ (∀ m r, step2_probe (mc_isin_lookup master) m = Some r
            ↔ ∃ s, get m "SR_ISIN" = PyStr s ∧ s ≠ ""
                   ∧ first_at isin_key s master r)
  ∧ (∀ m r, step3_probe (mc_symbol_lookup master) m = Some r
            ↔ upper (clean (get m "CompanyTicker")) ≠ ""
              ∧ first_at symbol_key (upper (clean (get m "CompanyTicker")))
                  master r).
Proof.
  split_and!.
  - intros k r. rewrite sr_lookup_lookup, <- first_with_first_at.
    apply guarded_Some, nonempty_pair_true.
  - intros k r. rewrite mc_isin_lookup_lookup, <- first_with_first_at.
    apply guarded_Some, nonempty_true.
  - intros k r. rewrite mc_symbol_lookup_lookup, <- first_with_first_at.
    apply guarded_Some, nonempty_true.
  - intros p r. rewrite step1_probe_first, <- first_with_first_at.
    apply guarded_Some, nonempty_pair_true.
  - intros m r. rewrite step2_probe_first.
    destruct (get m "SR_ISIN") as [|s].
    + split; [done|]. by intros (? & ? & _).
    + split.
      * destruct (nonempty s) eqn:Hs; [|done]. intros Hf. exists s.
        split_and!; [done|by apply nonempty_true|by apply first_with_first_at].
      * intros (s' & [= <-] & Hs%nonempty_true & Hf%first_with_first_at).
        by rewrite Hs.
  - intros m r. rewrite step3_probe_first, <- first_with_first_at.
    apply guarded_Some, nonempty_true.
Qed.

(** C5. No index has an entry under an empty key, and a row whose own key is
    empty is handled as unmatched by each loop body, whatever the index
    holds: the composite key [("", "")] in step 1, an empty [SR_ISIN] in
    step 2, an empty ticker in step 3. *)
Theorem empty_keys_never_match (secref master : list row) :
  sr_lookup secref !! ("", "") = None
  ∧ mc_isin_lookup master !! "" = None
  ∧ mc_symbol_lookup master !! "" = None
  ∧ (∀ idx cols r, sirca_key r = ("", "") →
       step1_probe idx r = None
       ∧ step1_row idx cols r = (blank_cols "SR_" cols r, false))
  ∧ (∀ idx cols m, truthy (get m "SR_ISIN") = false →
       step2_probe idx m = None
       ∧ step2_row idx cols m = (blank_cols "MC_" cols m, false))
  ∧ (∀ idx cols m, upper (clean (get m "CompanyTicker")) = "" →
       step3_probe idx m = None
       ∧ step3_row idx cols m = (m, false)).
Proof.
  split_and!.
  - by rewrite sr_lookup_lookup.
  - by rewrite mc_isin_lookup_lookup.
  - by rewrite mc_symbol_lookup_lookup.
  - intros idx cols r Hk.
    assert (Hp : step1_probe idx r = None) by (unfold step1_probe; by rewrite Hk).
    split; [done|]. unfold step1_row. by rewrite Hp.
  - intros idx cols m Hk.
    assert (Hp : step2_probe idx m = None) by (unfold step2_probe; by rewrite Hk).
    split; [done|]. unfold step2_row. by rewrite Hp.
  - intros idx cols m Hk.
    assert (Hp : step3_probe idx m = None) by (unfold step3_probe; by rewrite Hk).
    split; [done|]. unfold step3_row. rewrite Hp. simpl.
    by destruct (has_mc_data m).
Qed.

(** ** The schema of the merged rows *)

Lemma clean_field_dom (k : string) (r : row) :
  dom (clean_field k r) = {[ k ]} ∪ dom r.
Proof. unfold clean_field. apply dom_insert_L. Qed.

Lemma clean_sirca_row_dom (p : row) :
  dom (clean_sirca_row p) = dom p ∪ {[ "MS_CompanyID"; "MS_SecurityID" ]}.
Proof.
  unfold clean_sirca_row. rewrite !clean_field_dom.
  apply set_eq. intros x. set_unfold. tauto.
Qed.

Lemma step1_row_dom idx cols (r : row) :
  dom (step1_row idx cols r).1 = dom r ∪ prefixed "SR_" cols.
Proof.
  unfold step1_row. destruct (row_truthy _); simpl.
  - apply copy_cols_dom.
  - apply blank_cols_dom.
Qed.

Lemma step2_row_dom idx cols (m : row) :
  dom (step2_row idx cols m).1 = dom m ∪ prefixed "MC_" cols.
Proof.
  unfold step2_row. destruct (row_truthy _); simpl.
  - apply copy_cols_dom.
  - apply blank_cols_dom.
Qed.

Lemma step3_row_dom idx cols (m : row) :
  prefixed "MC_" cols ⊆ dom m → dom (step3_row idx cols m).1 = dom m.
Proof.
  intros Hsub. unfold step3_row. destruct (has_mc_data m); [done|].
  destruct (row_truthy _); simpl; [|done].
  rewrite copy_cols_dom, (comm_L (∪)). by apply subseteq_union_1_L.
Qed.

Lemma stage3_dom (i : inputs) (p : row) :
  dom (stage3 i p).1 = merged_schema i (dom p).
Proof.
  unfold stage3, stage2, stage1, merged_schema.
  rewrite step3_row_dom; rewrite step2_row_dom, step1_row_dom,
    clean_sirca_row_dom; [done|]. apply union_subseteq_r.
Qed.

Lemma step3_row_miss idx cols (m : row) :
  (step3_row idx cols m).2 = false → (step3_row idx cols m).1 = m.
Proof.
  unfold step3_row. destruct (has_mc_data m); [done|].
  by destruct (row_truthy _).
Qed.

Lemma prefixes_apart (a b : string) : "SR_" +:+ a ≠ "MC_" +:+ b.
Proof. done. Qed.

Lemma stage_miss_blank (i : inputs) (p : row) :
  (stage1 i p).2 = false → (stage2 i p).2 = false → (stage3 i p).2 = false →
  (stage3 i p).1
  = blank_cols "MC_" (mc_cols_keep (master_cols i))
      (blank_cols "SR_" (sr_cols_keep (secref_cols i)) (clean_sirca_row p)).
Proof.
  intros H1 H2 H3. unfold stage3 in *. rewrite step3_row_miss by done.
  unfold stage2 in *. revert H2. unfold step2_row.
  destruct (row_truthy _); [done|]. intros _. simpl. f_equal.
  unfold stage1 in *. revert H1. unfold step1_row.
  by destruct (row_truthy _).
Qed.

(** C3. Schema uniformity: when the primary rows all have the field names
    [S], every merged row has the field names [S], the two key fields, the
    [SR_] names of the kept secondary columns and the [MC_] names of the
    kept tertiary columns, so any two merged rows have the same field names;
    and in a row no loop counted as a match all those [SR_] and [MC_] fields
    are the empty string. *)
Theorem schema_uniformity (i : inputs) (S : gset string) :
  (∀ p, p ∈ sirca i → dom p = S) →
  (∀ m, m ∈ merged (main i) → dom m = merged_schema i S)
  ∧ (∀ m m', m ∈ merged (main i) → m' ∈ merged (main i) → dom m = dom m')
  ∧ (∀ n p m, sirca i !! n = Some p → merged (main i) !! n = Some m →
       (stage1 i p).2 = false → (stage2 i p).2 = false →
       (stage3 i p).2 = false →
       (∀ c, c ∈ sr_cols_keep (secref_cols i) →
          m !! ("SR_" +:+ c) = Some (PyStr ""))
       ∧ (∀ c, c ∈ mc_cols_keep (master_cols i) →
            m !! ("MC_" +:+ c) = Some (PyStr ""))).
Proof.
  intros Hschema.
  assert (Hdom : ∀ m, m ∈ merged (main i) → dom m = merged_schema i S).
  { intros m. rewrite merged_main. intros (p & -> & Hp)%list_elem_of_fmap.
    by rewrite stage3_dom, (Hschema p Hp). }
  split_and!; [done| |].
  - intros m m' Hm Hm'. by rewrite (Hdom m Hm), (Hdom m' Hm').
  - intros n p m Hp Hm H1 H2 H3.
    apply merged_lookup in Hm as (p' & Hp' & ->).
    assert (p' = p) as -> by congruence.
    rewrite stage_miss_blank by done. split; intros c Hc.
    + rewrite blank_cols_other.
      * by apply blank_cols_col.
      * intros (c' & Heq & _)%elem_of_prefixed. by apply prefixes_apart in Heq.
    + by apply blank_cols_col.
Qed.


(** ** The output columns and the written file *)

Lemma append_loop {A : Type} (P : A → bool) (l init : list A) :
  fold_left (λ out x, if P x then out ++ [x] else out) l init
  = init ++ filter (λ x, P x = true) l.
Proof.
  revert init. induction l as [|a l IH]; intros init; simpl.
  - by rewrite app_nil_r.
  - rewrite IH, filter_cons. destruct (P a); simpl; [|done].
    by rewrite <- app_assoc.
Qed.

Lemma filter_none {A : Type} (P : A → Prop) `{∀ x, Decision (P x)} (l : list A) :
  (∀ x, ¬ P x) → filter P l = [].
Proof.
  intros HP. induction l as [|a l IH]; [done|].
  rewrite filter_cons, decide_False by apply HP. done.
Qed.

Lemma output_cols_split (sirca_cols : list string) (merged : list row) :
  output_cols sirca_cols merged
  = filter (λ c, c ∈ available merged) output_cols_fixed
    ++ filter
         (λ c, (c ∉ filter (λ c, c ∈ available merged) output_cols_fixed)
               ∧ (c ∉ skip))
         sirca_cols.
Proof.
  unfold output_cols.
  rewrite (append_loop (λ col, bool_decide (col ∉ _) && bool_decide (col ∉ skip))).
  f_equal. apply list_filter_iff. intros c.
  rewrite andb_true_iff, !bool_decide_eq_true, elem_of_list_to_set. done.
Qed.

Lemma available_main (i : inputs) : available (merged (main i)) = run_schema i.
Proof.
  rewrite merged_main. unfold run_schema.
  destruct (sirca i) as [|p ps]; [done|]. apply stage3_dom.
Qed.

Lemma cell_written (cols : list string) (rows : list row) (m : row) (k : string) :
  cell (write_csv cols rows) (item m <$> cols) k
  = if decide (k ∈ cols) then Some (item m k) else None.
Proof.
  unfold cell, write_csv, header.
  induction cols as [|a cols IH]; [done|].
  rewrite fmap_cons. cbn [zip zip_with find fst].
  case_bool_decide as Ha.
  - subst a. rewrite decide_True by left. done.
  - rewrite IH. destruct (decide (k ∈ cols)) as [Hin|Hout].
    + rewrite decide_True by (by right). done.
    + rewrite decide_False; [done|]. intros [->|]%elem_of_cons; done.
Qed.

Lemma header_split (i : inputs) :
  header (output (main i))
  = filter (λ c, c ∈ run_schema i) output_cols_fixed
    ++ filter
         (λ c, (c ∉ filter (λ c, c ∈ run_schema i) output_cols_fixed)
               ∧ (c ∉ skip))
         (sirca_cols i).
Proof. rewrite <- available_main, header_main. apply output_cols_split. Qed.

(** C8. The output column list is the fixed list restricted to the names of
    the merged schema (the other requested names are dropped; nothing
    fails), followed by the primary header's columns that are neither in
    that restricted list nor in the exclusion set, in header order; every
    written record has one cell per output column. *)
Theorem output_columns (i : inputs) :
  header (output (main i))
  = filter (λ c, c ∈ run_schema i) output_cols_fixed
    ++ filter
         (λ c, (c ∉ filter (λ c, c ∈ run_schema i) output_cols_fixed)
               ∧ (c ∉ skip))
         (sirca_cols i)
  ∧ ∀ rec, rec ∈ records (output (main i)) →
      length rec = length (header (output (main i))).
Proof.
  split; [apply header_split|].
  - rewrite records_main. intros rec (m & -> & _)%list_elem_of_fmap.
    by rewrite length_fmap.
Qed.

(** C10. With an empty primary collection the availability set is empty,
    every name of the fixed list is dropped, and the header of the written
    file is the primary header without the names of the exclusion set, in
    header order; no record is written. *)
Theorem empty_primary_header (i : inputs) :
  sirca i = [] →
  available (merged (main i)) = ∅
  ∧ filter (λ c, c ∈ available (merged (main i))) output_cols_fixed = []
  ∧ header (output (main i)) = filter (λ c, c ∉ skip) (sirca_cols i)
  ∧ records (output (main i)) = [].
Proof.
  intros Hs.
  assert (Hm : merged (main i) = []) by by rewrite merged_main, Hs.
  assert (Hk : filter (λ c, c ∈ available (merged (main i))) output_cols_fixed = []).
  { rewrite Hm. apply filter_none. intros c. apply not_elem_of_empty. }
  split_and!.
  - by rewrite Hm.
  - done.
  - rewrite header_main, output_cols_split, Hk. rewrite app_nil_l.
    apply list_filter_iff. intros c. split; [by intros [_ Hc]|].
    intros Hc. split; [|done]. intros Hin. by apply elem_of_nil in Hin.
  - by rewrite records_main, Hm.
Qed.

(** ** Keys with one empty part *)

Lemma item_empty (k : string) : item (∅ : row) k = "".
Proof. unfold item. by rewrite lookup_empty. Qed.

Lemma sr_key_nonempty_row (r : row) : sr_key r ≠ ("", "") → r ≠ ∅.
Proof. intros Hk ->. apply Hk. unfold sr_key. by rewrite !item_empty. Qed.

(** C9. A composite key is kept out of the index only when both parts are
    empty.  A secondary row whose key has a non-empty part (the other may be
    empty, as in [("A", "")]) and that is the first with this key is stored
    under it, and a primary row with the same key joins to it: the loop body
    copies its columns and counts a match. *)
Theorem half_empty_key_matches (secref : list row) (cols : list string)
    (a b : string) (r p : row) :
  a ≠ "" ∨ b ≠ "" →
  first_at sr_key (a, b) secref r →
  sirca_key p = (a, b) →
  sr_lookup secref !! (a, b) = Some r
  ∧ step1_probe (sr_lookup secref) p = Some r
  ∧ step1_row (sr_lookup secref) cols p = (copy_cols "SR_" cols r p, true).
Proof.
  intros Hab Hfirst Hp.
  assert (Hk : (a, b) ≠ ("", "")) by (intros [= -> ->]; by destruct Hab).
  assert (Hidx : sr_lookup secref !! (a, b) = Some r).
  { rewrite sr_lookup_lookup.
    rewrite (proj2 (nonempty_pair_true _) Hk). by apply first_with_first_at. }
  assert (Hprobe : step1_probe (sr_lookup secref) p = Some r).
  { unfold step1_probe. rewrite Hp.
    by rewrite (proj2 (nonempty_pair_true _) Hk). }
  split_and!; [done..|].
  unfold step1_row. rewrite Hprobe. simpl.
  rewrite bool_decide_eq_true_2; [done|].
  apply sr_key_nonempty_row. destruct Hfirst as (_ & _ & _ & -> & _). done.
Qed.

(** ** The fallback probe *)

Lemma step3_probe_same_ticker (idx : gmap string row) (m1 m2 : row) :
  upper (clean (get m1 "CompanyTicker")) = upper (clean (get m2 "CompanyTicker")) →
  step3_probe idx m1 = step3_probe idx m2.
Proof. unfold step3_probe. by intros ->. Qed.

Lemma step3_row_eligible (idx : gmap string row) (cols : list string) (m : row) :
  has_mc_data m = false →
  step3_row idx cols m
  = if row_truthy (step3_probe idx m)
    then (copy_cols "MC_" cols (default ∅ (step3_probe idx m)) m, true)
    else (m, false).
Proof. unfold step3_row. by intros ->. Qed.

Lemma step3_row_skipped (idx : gmap string row) (cols : list string) (m : row) :
  has_mc_data m = true → step3_row idx cols m = (m, false).
Proof. unfold step3_row. by intros ->. Qed.

(** C7. The fallback is case-insensitive on the ticker: for any tertiary
    collection, a merged row with ticker ["abc"] and one with ticker ["ABC"]
    both probe the index with ["ABC"] and find the same row, the first
    tertiary row whose uppercased Symbol is ["ABC"]; when the rows are
    eligible for the fallback, that row is what the loop body copies. *)
Theorem ticker_case_insensitive (master : list row) (cols : list string)
    (m1 m2 : row) :
  get m1 "CompanyTicker" = PyStr "abc" →
  get m2 "CompanyTicker" = PyStr "ABC" →
  let found := first_with symbol_key "ABC" master in
  step3_probe (mc_symbol_lookup master) m1 = found
  ∧ step3_probe (mc_symbol_lookup master) m2 = found
  ∧ ∀ m, m = m1 ∨ m = m2 → has_mc_data m = false →
      step3_row (mc_symbol_lookup master) cols m
      = if row_truthy found
        then (copy_cols "MC_" cols (default ∅ found) m, true)
        else (m, false).
Proof.
  intros H1 H2 found.
  assert (Hp1 : step3_probe (mc_symbol_lookup master) m1 = found).
  { rewrite step3_probe_first, H1. reflexivity. }
  assert (Hp2 : step3_probe (mc_symbol_lookup master) m2 = found).
  { rewrite step3_probe_first, H2. reflexivity. }
  split_and!; [done..|].
  intros m [->| ->] Hm; rewrite step3_row_eligible by done.
  - by rewrite Hp1.
  - by rewrite Hp2.
Qed.

(** ** The fallback scenario *)

Lemma get_blank_cols (pre : string) (cols : list string) (dst : row) (k : string) :
  dst !! k = None → get (blank_cols pre cols dst) k = PyStr "".
Proof.
  intros Hk. unfold get.
  destruct (decide (k ∈ prefixed pre cols)) as [Hin|Hout].
  - apply elem_of_prefixed in Hin as (c & -> & Hc). by rewrite blank_cols_col.
  - by rewrite blank_cols_other, Hk.
Qed.

Lemma blank_cols_lookup_Some (pre : string) (cols : list string) (dst : row)
    (c : string) (v : pyval) :
  dst !! (pre +:+ c) = None → blank_cols pre cols dst !! (pre +:+ c) = Some v →
  v = PyStr "".
Proof.
  intros Hd Hv. destruct (decide (c ∈ cols)) as [Hin|Hout].
  - rewrite blank_cols_col in Hv by done. congruence.
  - rewrite blank_cols_other in Hv; [congruence|].
    intros (c' & ->%append_inj & Hc')%elem_of_prefixed. done.
Qed.

Lemma scenario_merged_row (hdr : list string) :
  (stage3 (scenario hdr) scenario_primary)
  = (<["MC_ABN" := PyStr "123"]>
       (<["MC_ABN" := PyStr ""]>
          (blank_cols "SR_" (sr_cols_keep hdr)
             (clean_sirca_row scenario_primary))), true)
  ∧ (stage1 (scenario hdr) scenario_primary).2 = false
  ∧ (stage2 (scenario hdr) scenario_primary).2 = false.
Proof.
  set (i := scenario hdr).
  set (row1 := blank_cols "SR_" (sr_cols_keep hdr)
                 (clean_sirca_row scenario_primary)).
  assert (H1 : stage1 i scenario_primary = (row1, false)) by reflexivity.
  assert (Hother : ∀ k, k ∉ prefixed "SR_" (sr_cols_keep hdr) →
            row1 !! k = clean_sirca_row scenario_primary !! k).
  { intros k Hk. by apply blank_cols_other. }
  assert (H2 : stage2 i scenario_primary = (<["MC_ABN" := PyStr ""]> row1, false)).
  { unfold stage2. rewrite H1. unfold step2_row, step2_probe.
    cbn [fst]. unfold row1. rewrite get_blank_cols by reflexivity. reflexivity. }
  split_and!; [|by rewrite H1|by rewrite H2].
  unfold stage3. rewrite H2. cbn [fst].
  rewrite step3_row_eligible.
  - unfold step3_probe, get.
    rewrite lookup_insert_ne, Hother by (done || not_prefixed).
    reflexivity.
  - unfold has_mc_data, get. rewrite lookup_insert_eq.
    rewrite !lookup_insert_ne, !Hother by (done || not_prefixed).
    reflexivity.
Qed.

Lemma scenario_primary_no_SR (c : string) :
  clean_sirca_row scenario_primary !! ("SR_" +:+ c) = None.
Proof.
  unfold clean_sirca_row, clean_field, scenario_primary.
  rewrite !lookup_insert_ne by done. by apply lookup_singleton_ne.
Qed.

Lemma cell_main (i : inputs) (m : row) (k : string) :
  cell (output (main i)) (item m <$> header (output (main i))) k
  = if decide (k ∈ header (output (main i))) then Some (item m k) else None.
Proof. apply cell_written. Qed.

(** C6. The fallback scenario: with the one primary row, no secondary row
    and the one tertiary row, whatever the secondary header is, the run
    yields one merged row and one written record; no row is counted in steps
    1 and 2 and one in step 3; every [SR_] field of the row is the empty
    string and [MC_ABN] is ["123"], in the merged row and in the written
    record. *)
Theorem fallback_scenario (hdr : list string) :
  let r := main (scenario hdr) in
  ∃ m rec,
    merged r = [m] ∧ records (output r) = [rec]
    ∧ n_step1 r = 0 ∧ n_step2 r = 0 ∧ n_step3 r = 1
    ∧ m !! "MC_ABN" = Some (PyStr "123")
    ∧ (∀ c, c ∈ sr_cols_keep hdr → m !! ("SR_" +:+ c) = Some (PyStr ""))
    ∧ (∀ c v, m !! ("SR_" +:+ c) = Some v → v = PyStr "")
    ∧ cell (output r) rec "MC_ABN" = Some "123"
    ∧ (∀ c s, cell (output r) rec ("SR_" +:+ c) = Some s → s = "").
Proof.
  intros r. subst r.
  destruct (scenario_merged_row hdr) as (H3 & H1 & H2).
  assert (Hsirca : sirca (scenario hdr) = [scenario_primary]) by done.
  assert (Hmc : "ABN" ∈ mc_cols_keep (master_cols (scenario hdr)))
    by by_compute.
  assert (Hsr : sr_cols_keep (secref_cols (scenario hdr))
                = sr_cols_keep hdr) by done.
  revert H1 H2 H3 Hsirca Hmc Hsr.
  generalize (scenario hdr) as i. intros i H1 H2 H3 Hsirca Hmc Hsr.
  set (m := (stage3 i scenario_primary).1).
  assert (Hm : merged (main i) = [m]) by by rewrite merged_main, Hsirca.
  assert (Hmeq : m = <["MC_ABN" := PyStr "123"]>
                       (<["MC_ABN" := PyStr ""]>
                          (blank_cols "SR_" (sr_cols_keep hdr)
                             (clean_sirca_row scenario_primary)))).
  { unfold m. by rewrite H3. }
  assert (Habn : m !! "MC_ABN" = Some (PyStr "123")).
  { rewrite Hmeq. apply lookup_insert_eq. }
  assert (Hsrv : ∀ c v, m !! ("SR_" +:+ c) = Some v → v = PyStr "").
  { intros c v. rewrite Hmeq, !lookup_insert_ne by done.
    apply blank_cols_lookup_Some, scenario_primary_no_SR. }
  destruct (counters_main i) as (Hn1 & Hn2 & Hn3).
  exists m, (item m <$> header (output (main i))).
  split_and!; [done| | | | |done| |done| |].
  - by rewrite records_main, Hm.
  - rewrite Hn1, Hsirca. unfold hits. by rewrite filter_cons, H1.
  - rewrite Hn2, Hsirca. unfold hits. by rewrite filter_cons, H2.
  - rewrite Hn3, Hsirca. unfold hits. by rewrite filter_cons, H3.
  - intros c Hc. rewrite Hmeq, !lookup_insert_ne by done.
    rewrite blank_cols_col; done.
  - rewrite cell_main, decide_True.
    + unfold item. by rewrite Habn.
    + rewrite header_split. apply elem_of_app. left.
      apply list_elem_of_filter. split; [|by_compute].
      unfold run_schema. rewrite Hsirca.
      unfold merged_schema. apply elem_of_union_r, elem_of_prefixed.
      by exists "ABN".
  - intros c s. rewrite cell_main. case_decide; [|done]. intros [= <-].
    unfold item. destruct (m !! ("SR_" +:+ c)) as [v|] eqn:Hv; [|done].
    by rewrite (Hsrv c v Hv).
Qed.

(** ** The fallback on a row the ISIN join matched *)

Lemma fallback_keeps_rows_with_mc_data (i : inputs) (p : row) :
  has_mc_data (stage2 i p).1 = true → stage3 i p = ((stage2 i p).1, false).
Proof. intros Hd. unfold stage3. by apply step3_row_skipped. Qed.

(** C1 fails on [isin_matched_input].  The only primary row is matched by the
    ISIN join of step 2 (to the tertiary row with [Identifier] ["first"],
    whose ABN, ACN and TradingStatus cells are empty), its ticker is in the
    symbol index, and step 3 does not skip it: it replaces the [MC_] fields
    by those of the tertiary row with [Identifier] ["second"] and counts the
    row a second time. *)
Theorem fallback_overwrites_isin_match :
  let i := isin_matched_input in
  let p := isin_matched_primary in
  sirca i = [p]
  ∧ (stage2 i p).2 = true
  ∧ has_mc_data (stage2 i p).1 = false
  ∧ step3_probe (mc_symbol_lookup (standardise_master (master i))) (stage2 i p).1
    = Some (clean_master_row tertiary_by_symbol)
  ∧ (stage3 i p).2 = true
  ∧ (stage2 i p).1 !! "MC_Identifier" = Some (PyStr "first")
  ∧ (stage3 i p).1 !! "MC_Identifier" = Some (PyStr "second")
  ∧ (stage3 i p).1 ≠ (stage2 i p).1
  ∧ merged (main i) = [(stage3 i p).1]
  ∧ n_step2 (main i) = 1
  ∧ n_step3 (main i) = 1.
Proof. split_and!; by_compute. Qed.

(** ** The theorems on concrete inputs *)

Lemma row_conservation_witness :
  sirca two_row_input !! 1 = Some unmatched_primary
  ∧ merged (main two_row_input) !! 1
    = Some (stage3 two_row_input unmatched_primary).1.
Proof.
  split; [reflexivity|].
  exact (proj1 (proj2 (proj2 (row_conservation two_row_input))
                  1 unmatched_primary eq_refl)).
Defined.

Lemma empty_keys_never_match_witness :
  sirca_key (clean_sirca_row blank_key_primary) = ("", "")
  ∧ step1_row index_with_empty_pair ["ISIN"] (clean_sirca_row blank_key_primary)
    = (blank_cols "SR_" ["ISIN"] (clean_sirca_row blank_key_primary), false).
Proof.
  assert (H : sirca_key (clean_sirca_row blank_key_primary) = ("", ""))
    by (vm_compute; reflexivity).
  split; [exact H|].
  destruct (empty_keys_never_match [] []) as (_ & _ & _ & H1 & _).
  exact (proj2 (H1 index_with_empty_pair ["ISIN"] _ H)).
Defined.

Lemma output_columns_witness :
  header (output (main two_row_input))
  = filter (λ c, c ∈ run_schema two_row_input) output_cols_fixed
    ++ filter
         (λ c, (c ∉ filter (λ c, c ∈ run_schema two_row_input) output_cols_fixed)
               ∧ (c ∉ skip))
         (sirca_cols two_row_input).
Proof. exact (proj1 (output_columns two_row_input)). Defined.

Lemma schema_uniformity_witness :
  (∀ p, p ∈ sirca two_row_input → dom p = dom isin_matched_primary)
  ∧ (∀ m m', m ∈ merged (main two_row_input) →
       m' ∈ merged (main two_row_input) → dom m = dom m').
Proof.
  assert (H : ∀ p, p ∈ sirca two_row_input → dom p = dom isin_matched_primary).
  { intros p Hp. change (sirca two_row_input)
      with [isin_matched_primary; unmatched_primary] in Hp.
    apply elem_of_cons in Hp as [->|Hp]; [reflexivity|].
    apply list_elem_of_singleton in Hp as ->. vm_compute. reflexivity. }
  split; [exact H|].
  exact (proj1 (proj2 (schema_uniformity two_row_input _ H))).
Defined.

Lemma half_empty_key_matches_witness :
  sr_lookup [clean_secref_row half_key_secondary] !! ("A", "")
  = Some (clean_secref_row half_key_secondary)
  ∧ step1_probe (sr_lookup [clean_secref_row half_key_secondary])
      (clean_sirca_row half_key_primary)
    = Some (clean_secref_row half_key_secondary)
  ∧ step1_row (sr_lookup [clean_secref_row half_key_secondary]) ["ISIN"]
      (clean_sirca_row half_key_primary)
    = (copy_cols "SR_" ["ISIN"] (clean_secref_row half_key_secondary)
         (clean_sirca_row half_key_primary), true).
Proof.
  apply (half_empty_key_matches [clean_secref_row half_key_secondary] ["ISIN"]
           "A" "" (clean_secref_row half_key_secondary)
           (clean_sirca_row half_key_primary)).
  - left. discriminate.
  - exists [], []. split_and!; [reflexivity|vm_compute; reflexivity|].
    intros x Hx. by apply elem_of_nil in Hx.
  - vm_compute. reflexivity.
Defined.

Lemma ticker_case_insensitive_witness :
  step3_probe (mc_symbol_lookup [clean_master_row mixed_case_tertiary])
    (ticker_row "abc")
  = step3_probe (mc_symbol_lookup [clean_master_row mixed_case_tertiary])
      (ticker_row "ABC").
Proof.
  destruct (ticker_case_insensitive [clean_master_row mixed_case_tertiary] []
              (ticker_row "abc") (ticker_row "ABC"))
    as (H1 & H2 & _); [reflexivity..|].
  exact (eq_trans H1 (eq_sym H2)).
Defined.

Lemma empty_primary_header_witness :
  sirca empty_primary_input = []
  ∧ header (output (main empty_primary_input))
    = filter (λ c, c ∉ skip) (sirca_cols empty_primary_input).
Proof.
  split; [reflexivity|].
  exact (proj1 (proj2 (proj2 (empty_primary_header empty_primary_input eq_refl)))).
Defined.

(** * Further properties of the script *)

(** ** Cleaning *)

Lemma lstrip_starts_clean (s : string) : starts_clean (lstrip s).
Proof.
  induction s as [|c s IH]; simpl; [done|].
  destruct (isspace c) eqn:Hc; [done|]. simpl. by rewrite Hc.
Qed.

Lemma lstrip_clean (s : string) : starts_clean s → lstrip s = s.
Proof. destruct s as [|c s]; simpl; [done|]. by intros ->. Qed.

Lemma rstrip_starts_clean (s : string) : starts_clean s → starts_clean (rstrip s).
Proof.
  destruct s as [|c s]; simpl; [done|]. intros Hc.
  destruct (rstrip s); simpl; by rewrite Hc.
Qed.

Lemma rstrip_idem (s : string) : rstrip (rstrip s) = rstrip s.
Proof.
  induction s as [|c s IH]; simpl; [done|].
  destruct (rstrip s) as [|d t] eqn:Ht.
  - destruct (isspace c) eqn:Hc; simpl; [done|]. by rewrite Hc.
  - change (rstrip (String c (String d t)))
      with (match rstrip (String d t) with
            | EmptyString =>
                if isspace c then EmptyString else String c EmptyString
            | u => String c u
            end).
    by rewrite IH.
Qed.

Lemma strip_idem (s : string) : strip (strip s) = strip s.
Proof.
  unfold strip. rewrite lstrip_clean.
  - apply rstrip_idem.
  - apply rstrip_starts_clean, lstrip_starts_clean.
Qed.

Lemma lstrip_empty (s : string) : lstrip s = "" ↔ all_space s = true.
Proof.
  induction s as [|c s IH]; simpl; [done|].
  destruct (isspace c); simpl; [done|]. split; discriminate.
Qed.

Lemma rstrip_empty (s : string) : starts_clean s → rstrip s = "" → s = "".
Proof.
  destruct s as [|c s]; simpl; [done|]. intros ->.
  by destruct (rstrip s).
Qed.

Lemma strip_empty (s : string) : strip s = "" ↔ all_space s = true.
Proof.
  rewrite <- lstrip_empty. unfold strip. split.
  - apply rstrip_empty, lstrip_starts_clean.
  - by intros ->.
Qed.

Lemma clean_empty (v : pyval) : clean v = "" ↔ blank_cell v = true.
Proof. destruct v as [|s]; simpl; [done|]. apply strip_empty. Qed.

Lemma clean_clean (v : pyval) : clean (PyStr (clean v)) = clean v.
Proof. destruct v as [|s]; simpl; [done|]. apply strip_idem. Qed.

Lemma get_clean_field (k k' : string) (r : row) :
  get (clean_field k r) k'
  = if decide (k = k') then PyStr (clean (get r k)) else get r k'.
Proof.
  unfold get, clean_field. case_decide as Hk.
  - subst k'. by rewrite lookup_insert_eq.
  - by rewrite lookup_insert_ne.
Qed.

Lemma clean_field_idem (k : string) (r : row) :
  clean_field k (clean_field k r) = clean_field k r.
Proof.
  unfold clean_field at 1. rewrite get_clean_field, decide_True by done.
  rewrite clean_clean. unfold clean_field. apply insert_insert_eq.
Qed.

Lemma clean_field_comm (k k' : string) (r : row) :
  k ≠ k' → clean_field k (clean_field k' r) = clean_field k' (clean_field k r).
Proof.
  intros Hk. unfold clean_field at 1 3.
  rewrite !get_clean_field, !decide_False by done.
  unfold clean_field. by apply insert_insert_ne.
Qed.

Lemma clean_sirca_row_idem (r : row) :
  clean_sirca_row (clean_sirca_row r) = clean_sirca_row r.
Proof.
  unfold clean_sirca_row.
  rewrite (clean_field_comm "MS_CompanyID" "MS_SecurityID") by done.
  by rewrite !clean_field_idem.
Qed.

Lemma clean_master_row_idem (r : row) :
  clean_master_row (clean_master_row r) = clean_master_row r.
Proof.
  unfold clean_master_row.
  rewrite (clean_field_comm "ISIN" "Symbol") by done.
  by rewrite !clean_field_idem.
Qed.

Lemma clean_secref_row_idem (r : row) :
  clean_secref_row (clean_secref_row r) = clean_secref_row r.
Proof.
  unfold clean_secref_row.
  rewrite (clean_field_comm "CompanyId" "ISIN") by done.
  rewrite (clean_field_comm "CompanyId" "ShareClassId") by done.
  rewrite clean_field_idem.
  rewrite (clean_field_comm "ShareClassId" "ISIN") by done.
  by rewrite !clean_field_idem.
Qed.

Lemma item_clean_field (k : string) (r : row) :
  item (clean_field k r) k = clean (get r k).
Proof. unfold item, clean_field. by rewrite lookup_insert_eq. Qed.

Lemma item_clean_field_ne (k k' : string) (r : row) :
  k ≠ k' → item (clean_field k r) k' = item r k'.
Proof. intros Hk. unfold item, clean_field. by rewrite lookup_insert_ne. Qed.

Lemma sirca_key_clean (p : row) :
  sirca_key (clean_sirca_row p)
  = (clean (get p "MS_CompanyID"), clean (get p "MS_SecurityID")).
Proof.
  unfold sirca_key, clean_sirca_row.
  rewrite item_clean_field_ne, !item_clean_field by done.
  by rewrite get_clean_field, decide_False.
Qed.

Lemma sr_key_clean (r : row) :
  sr_key (clean_secref_row r)
  = (clean (get r "CompanyId"), clean (get r "ShareClassId")).
Proof.
  unfold sr_key, clean_secref_row.
  rewrite !item_clean_field_ne, !item_clean_field by done.
  rewrite item_clean_field_ne, item_clean_field by done.
  by rewrite get_clean_field, decide_False.
Qed.

Lemma isin_key_clean (r : row) :
  isin_key (clean_master_row r) = clean (get r "ISIN").
Proof.
  unfold isin_key, clean_master_row.
  by rewrite item_clean_field_ne, item_clean_field.
Qed.

Lemma symbol_key_clean (r : row) :
  symbol_key (clean_master_row r) = upper (clean (get r "Symbol")).
Proof.
  unfold symbol_key, clean_master_row.
  by rewrite item_clean_field, get_clean_field, decide_False.
Qed.

(** X1. Standardising the key fields twice is the same as standardising
    them once, for each of the three collections: a cleaned key is already
    clean. *)
Theorem standardise_idempotent (rows : list row) :
  standardise_sirca (standardise_sirca rows) = standardise_sirca rows
  ∧ standardise_secref (standardise_secref rows) = standardise_secref rows
  ∧ standardise_master (standardise_master rows) = standardise_master rows.
Proof.
  unfold standardise_sirca, standardise_secref, standardise_master.
  rewrite <- !list_fmap_compose. split_and!; apply list_fmap_ext; intros _ r _.
  - apply clean_sirca_row_idem.
  - apply clean_secref_row_idem.
  - apply clean_master_row_idem.
Qed.

(** ** What the joins leave alone *)

Lemma step1_row_other idx cols (r : row) (k : string) :
  k ∉ prefixed "SR_" cols → (step1_row idx cols r).1 !! k = r !! k.
Proof.
  intros Hk. unfold step1_row. destruct (row_truthy _); simpl.
  - by apply copy_cols_other.
  - by apply blank_cols_other.
Qed.

Lemma step2_row_other idx cols (m : row) (k : string) :
  k ∉ prefixed "MC_" cols → (step2_row idx cols m).1 !! k = m !! k.
Proof.
  intros Hk. unfold step2_row. destruct (row_truthy _); simpl.
  - by apply copy_cols_other.
  - by apply blank_cols_other.
Qed.

Lemma step3_row_other idx cols (m : row) (k : string) :
  k ∉ prefixed "MC_" cols → (step3_row idx cols m).1 !! k = m !! k.
Proof.
  intros Hk. unfold step3_row. destruct (has_mc_data m); [done|].
  destruct (row_truthy _); simpl; [|done]. by apply copy_cols_other.
Qed.

Lemma clean_sirca_row_other (p : row) (k : string) :
  k ≠ "MS_CompanyID" → k ≠ "MS_SecurityID" → clean_sirca_row p !! k = p !! k.
Proof.
  intros H1 H2. unfold clean_sirca_row, clean_field.
  by rewrite !lookup_insert_ne.
Qed.

Lemma clean_master_row_other (r : row) (k : string) :
  k ≠ "ISIN" → k ≠ "Symbol" → clean_master_row r !! k = r !! k.
Proof.
  intros H1 H2. unfold clean_master_row, clean_field.
  by rewrite !lookup_insert_ne.
Qed.

Lemma stage3_other (i : inputs) (p : row) (k : string) :
  k ∉ prefixed "SR_" (sr_cols_keep (secref_cols i)) →
  k ∉ prefixed "MC_" (mc_cols_keep (master_cols i)) →
  (stage3 i p).1 !! k = clean_sirca_row p !! k.
Proof.
  intros Hsr Hmc. unfold stage3, stage2, stage1.
  by rewrite step3_row_other, step2_row_other, step1_row_other.
Qed.

Lemma stage3_SR (i : inputs) (p : row) (c : string) :
  (stage3 i p).1 !! ("SR_" +:+ c) = (stage1 i p).1 !! ("SR_" +:+ c).
Proof.
  unfold stage3, stage2.
  rewrite step3_row_other, step2_row_other; [done|not_prefixed..].
Qed.

Lemma ticker_kept (i : inputs) (p : row) :
  get (stage2 i p).1 "CompanyTicker" = get p "CompanyTicker".
Proof.
  unfold get, stage2, stage1.
  rewrite step2_row_other, step1_row_other by not_prefixed.
  by rewrite clean_sirca_row_other.
Qed.

(** ** The three joins, row by row *)

Lemma clean_field_nonempty (k : string) (r : row) : clean_field k r ≠ ∅.
Proof.
  intros He. destruct (clean_field_sets k r) as [s Hs].
  by rewrite He, lookup_empty in Hs.
Qed.

Lemma standardised_secref_truthy (secref : list row) (r : row) :
  r ∈ standardise_secref secref → row_truthy (Some r) = true.
Proof.
  intros (r0 & -> & _)%list_elem_of_fmap. simpl.
  apply bool_decide_eq_true_2, clean_field_nonempty.
Qed.

Lemma standardised_master_truthy (master : list row) (r : row) :
  r ∈ standardise_master master → row_truthy (Some r) = true.
Proof.
  intros (r0 & -> & _)%list_elem_of_fmap. simpl.
  apply bool_decide_eq_true_2, clean_field_nonempty.
Qed.

Lemma first_with_is_Some {K : Type} `{EqDecision K} (key : row → K) (k : K)
    (rows : list row) :
  is_Some (first_with key k rows) ↔ ∃ r, r ∈ rows ∧ key r = k.
Proof.
  unfold first_with. induction rows as [|a rows IH]; simpl.
  - split; [by intros [? ?]|]. intros (r & Hr & _). by apply elem_of_nil in Hr.
  - case_bool_decide as Ha.
    + split; [|by eauto]. intros _. exists a. split; [left|done].
    + rewrite IH. split.
      * intros (r & Hr & Hk). exists r. split; [by right|done].
      * intros (r & [->|Hr]%elem_of_cons & Hk); [done|eauto].
Qed.

Lemma first_with_elem {K : Type} `{EqDecision K} (key : row → K) (k : K)
    (rows : list row) (r : row) :
  first_with key k rows = Some r → r ∈ rows ∧ key r = k.
Proof.
  unfold first_with. induction rows as [|a rows IH]; simpl; [done|].
  case_bool_decide as Ha.
  - intros [= ->]. split; [left|done].
  - intros Hf. destruct (IH Hf). split; [by right|done].
Qed.

(** What the step-1 loop body does to a primary row, by cases. *)
Lemma stage1_cases (i : inputs) (p : row) :
  let p' := clean_sirca_row p in
  let srk := sr_cols_keep (secref_cols i) in
  match step1_probe (sr_lookup (standardise_secref (secref i))) p' with
  | Some r => r ∈ standardise_secref (secref i)
              ∧ sr_key r = sirca_key p' ∧ sirca_key p' ≠ ("", "")
              ∧ stage1 i p = (copy_cols "SR_" srk r p', true)
  | None => stage1 i p = (blank_cols "SR_" srk p', false)
  end.
Proof.
  intros p' srk. unfold stage1, step1_row. fold p' srk.
  destruct (step1_probe _ p') as [r|] eqn:Hp; [|done].
  rewrite step1_probe_first in Hp.
  destruct (nonempty_pair (sirca_key p')) eqn:Hk; [|done].
  apply first_with_elem in Hp as [Hr Hkey].
  rewrite (standardised_secref_truthy _ _ Hr).
  split_and!; [done..|by apply nonempty_pair_true|done].
Qed.

(** What the step-2 loop body does to the row step 1 built. *)
Lemma stage2_cases (i : inputs) (p : row) :
  let m1 := (stage1 i p).1 in
  let mck := mc_cols_keep (master_cols i) in
  match step2_probe (mc_isin_lookup (standardise_master (master i))) m1 with
  | Some r => r ∈ standardise_master (master i)
              ∧ get m1 "SR_ISIN" = PyStr (isin_key r) ∧ isin_key r ≠ ""
              ∧ stage2 i p = (copy_cols "MC_" mck r m1, true)
  | None => stage2 i p = (blank_cols "MC_" mck m1, false)
  end.
Proof.
  intros m1 mck. unfold stage2, step2_row. fold m1 mck.
  destruct (step2_probe _ m1) as [r|] eqn:Hp; [|done].
  rewrite step2_probe_first in Hp.
  destruct (get m1 "SR_ISIN") as [|s]; [done|].
  destruct (nonempty s) eqn:Hs; [|done].
  apply first_with_elem in Hp as [Hr Hkey].
  rewrite (standardised_master_truthy _ _ Hr). subst s.
  split_and!; [done..|by apply nonempty_true|done].
Qed.

(** What the step-3 loop body does to the row step 2 left. *)
Lemma stage3_cases (i : inputs) (p : row) :
  let m2 := (stage2 i p).1 in
  let mck := mc_cols_keep (master_cols i) in
  let ticker := upper (clean (get m2 "CompanyTicker")) in
  if has_mc_data m2 then stage3 i p = (m2, false)
  else
    match step3_probe (mc_symbol_lookup (standardise_master (master i))) m2 with
    | Some r => r ∈ standardise_master (master i)
                ∧ symbol_key r = ticker ∧ ticker ≠ ""
                ∧ stage3 i p = (copy_cols "MC_" mck r m2, true)
    | None => stage3 i p = (m2, false)
    end.
Proof.
  intros m2 mck ticker. unfold stage3, step3_row. fold m2 mck.
  destruct (has_mc_data m2); [done|].
  destruct (step3_probe _ m2) as [r|] eqn:Hp; [|done].
  rewrite step3_probe_first in Hp. cbv zeta in Hp. fold ticker in Hp.
  destruct (nonempty ticker) eqn:Ht; [|done].
  apply first_with_elem in Hp as [Hr Hkey].
  rewrite (standardised_master_truthy _ _ Hr).
  split_and!; [done..|by apply nonempty_true|done].
Qed.

Lemma step1_probe_is_Some (secref : list row) (p : row) :
  is_Some (step1_probe (sr_lookup secref) p)
  ↔ sirca_key p ≠ ("", "") ∧ ∃ r, r ∈ secref ∧ sr_key r = sirca_key p.
Proof.
  rewrite step1_probe_first, <- first_with_is_Some, <- nonempty_pair_true.
  destruct (nonempty_pair _).
  - split; [by intros ?|by intros [_ ?]].
  - split; [by intros [? ?]|by intros [? _]].
Qed.

Lemma stage1_hit_iff (i : inputs) (p : row) :
  (stage1 i p).2 = true
  ↔ sirca_key (clean_sirca_row p) ≠ ("", "")
    ∧ ∃ r, r ∈ standardise_secref (secref i)
           ∧ sr_key r = sirca_key (clean_sirca_row p).
Proof.
  rewrite <- step1_probe_is_Some.
  pose proof (stage1_cases i p) as Hc. cbv zeta in Hc.
  destruct (step1_probe _ _) as [r|].
  - destruct Hc as (_ & _ & _ & ->). by split; [eauto|].
  - rewrite Hc. split; [done|]. by intros [? ?].
Qed.

Lemma step2_match_hit (i : inputs) (p : row) :
  (stage2 i p).2 = true →
  ∃ s, get (stage1 i p).1 "SR_ISIN" = PyStr s ∧ s ≠ "".
Proof.
  pose proof (stage2_cases i p) as Hc. cbv zeta in Hc.
  destruct (step2_probe _ _) as [r|].
  - destruct Hc as (_ & Hs & Hne & _). eauto.
  - by rewrite Hc.
Qed.

Lemma stage2_hit_iff (i : inputs) (p : row) :
  (stage2 i p).2 = true
  ↔ ∃ s, get (stage1 i p).1 "SR_ISIN" = PyStr s ∧ s ≠ ""
         ∧ ∃ r, r ∈ standardise_master (master i) ∧ isin_key r = s.
Proof.
  pose proof (stage2_cases i p) as Hc. cbv zeta in Hc.
  destruct (step2_probe _ _) as [r|] eqn:Hp.
  - destruct Hc as (Hr & Hs & Hne & ->). split; [|done]. intros _.
    exists (isin_key r). eauto.
  - rewrite Hc. split; [done|]. intros (s & Hs & Hne & r & Hr & Hk).
    rewrite step2_probe_first, Hs in Hp.
    rewrite (proj2 (nonempty_true s) Hne) in Hp.
    assert (is_Some (first_with isin_key s (standardise_master (master i))))
      as [? Hf] by (apply first_with_is_Some; eauto).
    congruence.
Qed.

Lemma stage3_hit_iff (i : inputs) (p : row) :
  (stage3 i p).2 = true
  ↔ has_mc_data (stage2 i p).1 = false
    ∧ upper (clean (get (stage2 i p).1 "CompanyTicker")) ≠ ""
    ∧ ∃ r, r ∈ standardise_master (master i)
           ∧ symbol_key r = upper (clean (get (stage2 i p).1 "CompanyTicker")).
Proof.
  pose proof (stage3_cases i p) as Hc. cbv zeta in Hc.
  destruct (has_mc_data (stage2 i p).1).
  - rewrite Hc. split; [done|]. by intros [? _].
  - destruct (step3_probe _ _) as [r|] eqn:Hp.
    + destruct Hc as (Hr & Hk & Hne & ->). split; [|done]. intros _. eauto.
    + rewrite Hc. split; [done|]. intros (_ & Hne & r & Hr & Hk).
      rewrite step3_probe_first in Hp. cbv zeta in Hp.
      rewrite (proj2 (nonempty_true _) Hne) in Hp.
      assert (is_Some (first_with symbol_key
                         (upper (clean (get (stage2 i p).1 "CompanyTicker")))
                         (standardise_master (master i))))
        as [? Hf] by (apply first_with_is_Some; eauto).
      congruence.
Qed.

(** X2. Step 1 counts a primary row exactly when its cleaned two-part key is
    not the empty pair and some secondary row has, once cleaned, the same
    two-part key. *)
Theorem step1_match_iff (i : inputs) (p : row) :
  (stage1 i p).2 = true
  ↔ (clean (get p "MS_CompanyID"), clean (get p "MS_SecurityID")) ≠ ("", "")
    ∧ ∃ r, r ∈ secref i
           ∧ (clean (get r "CompanyId"), clean (get r "ShareClassId"))
             = (clean (get p "MS_CompanyID"), clean (get p "MS_SecurityID")).
Proof.
  rewrite stage1_hit_iff, sirca_key_clean. apply and_iff_compat_l. split.
  - intros (r & (r0 & -> & Hr0)%list_elem_of_fmap & Hk).
    rewrite sr_key_clean in Hk. eauto.
  - intros (r0 & Hr0 & Hk). exists (clean_secref_row r0). split.
    + apply list_elem_of_fmap. eauto.
    + by rewrite sr_key_clean.
Qed.

(** X3. Step 2 counts a row exactly when its [SR_ISIN] cell, as step 1 left
    it, is a non-empty string and some tertiary row has, once cleaned, this
    ISIN. *)
Theorem step2_match_iff (i : inputs) (p : row) :
  (stage2 i p).2 = true
  ↔ ∃ s, get (stage1 i p).1 "SR_ISIN" = PyStr s ∧ s ≠ ""
         ∧ ∃ r, r ∈ master i ∧ clean (get r "ISIN") = s.
Proof.
  rewrite stage2_hit_iff. split.
  - intros (s & Hs & Hne & r & (r0 & -> & Hr0)%list_elem_of_fmap & Hk).
    rewrite isin_key_clean in Hk. exists s. eauto.
  - intros (s & Hs & Hne & r0 & Hr0 & Hk). exists s. split_and!; [done..|].
    exists (clean_master_row r0). split.
    + apply list_elem_of_fmap. eauto.
    + by rewrite isin_key_clean.
Qed.

(** X4. Step 3 counts a row exactly when the three cells [MC_ABN], [MC_ACN]
    and [MC_TradingStatus] are all empty after step 2, the primary row's
    cleaned and uppercased ticker is not empty, and some tertiary row has,
    once cleaned and uppercased, this Symbol. *)
Theorem step3_match_iff (i : inputs) (p : row) :
  (stage3 i p).2 = true
  ↔ has_mc_data (stage2 i p).1 = false
    ∧ upper (clean (get p "CompanyTicker")) ≠ ""
    ∧ ∃ r, r ∈ master i
           ∧ upper (clean (get r "Symbol"))
             = upper (clean (get p "CompanyTicker")).
Proof.
  rewrite stage3_hit_iff, ticker_kept.
  apply and_iff_compat_l, and_iff_compat_l. split.
  - intros (r & (r0 & -> & Hr0)%list_elem_of_fmap & Hk).
    rewrite symbol_key_clean in Hk. eauto.
  - intros (r0 & Hr0 & Hk). exists (clean_master_row r0). split.
    + apply list_elem_of_fmap. eauto.
    + by rewrite symbol_key_clean.
Qed.

(** ** Where the fields of a merged row come from *)


(** X5. The joins only write the [SR_] and [MC_] names of the kept columns:
    any other field of a merged row is the field of the standardised primary
    row, and outside the two key fields it is the primary row's own cell,
    untouched. *)
Theorem primary_fields_kept (i : inputs) (p : row) (k : string) :
  k ∉ prefixed "SR_" (sr_cols_keep (secref_cols i)) →
  k ∉ prefixed "MC_" (mc_cols_keep (master_cols i)) →
  (stage3 i p).1 !! k = clean_sirca_row p !! k
  ∧ (k ≠ "MS_CompanyID" → k ≠ "MS_SecurityID" → (stage3 i p).1 !! k = p !! k).
Proof.
  intros Hsr Hmc. split; [by apply stage3_other|].
  intros H1 H2. rewrite stage3_other by done. by apply clean_sirca_row_other.
Qed.


(** X6. The [SR_] fields of a merged row are those step 1 wrote and are
    never changed afterwards: for a kept secondary column [c], [SR_c] is the
    cell [c] of the first secondary row whose cleaned key is the primary
    row's cleaned key, when that key is not the empty pair and such a row
    exists, and the empty string otherwise. *)
Theorem sr_fields_source (i : inputs) (p : row) (c : string) :
  c ∈ sr_cols_keep (secref_cols i) →
  let key := sirca_key (clean_sirca_row p) in
  (stage3 i p).1 !! ("SR_" +:+ c)
  = Some (if nonempty_pair key
          then match first_with sr_key key (standardise_secref (secref i)) with
               | Some r => get r c
               | None => PyStr ""
               end
          else PyStr "").
Proof.
  intros Hc key. rewrite stage3_SR.
  pose proof (stage1_cases i p) as Hcase. cbv zeta in Hcase.
  rewrite step1_probe_first in Hcase. fold key in Hcase.
  destruct (nonempty_pair key).
  - destruct (first_with _ _ _) as [r|].
    + destruct Hcase as (_ & _ & _ & ->). by apply copy_cols_col.
    + rewrite Hcase. by apply blank_cols_col.
  - rewrite Hcase. by apply blank_cols_col.
Qed.


(** X7. The [MC_] fields of a merged row never mix two tertiary rows: either
    they are all empty, or they are all the cells of one tertiary row, whose
    cleaned ISIN is the row's [SR_ISIN] or whose uppercased Symbol is the
    primary row's cleaned, uppercased ticker. *)
Theorem mc_fields_one_source (i : inputs) (p : row) :
  let m := (stage3 i p).1 in
  let mck := mc_cols_keep (master_cols i) in
  (∀ c, c ∈ mck → m !! ("MC_" +:+ c) = Some (PyStr ""))
  ∨ ∃ r, r ∈ standardise_master (master i)
         ∧ (get (stage1 i p).1 "SR_ISIN" = PyStr (isin_key r)
            ∨ symbol_key r = upper (clean (get p "CompanyTicker")))
         ∧ ∀ c, c ∈ mck → m !! ("MC_" +:+ c) = Some (get r c).
Proof.
  intros m mck. subst m.
  pose proof (stage3_cases i p) as H3. cbv zeta in H3.
  pose proof (stage2_cases i p) as H2. cbv zeta in H2.
  rewrite ticker_kept in H3. fold mck in H2, H3.
  assert (Hkeep : stage3 i p = ((stage2 i p).1, false) →
            (∀ c, c ∈ mck → (stage3 i p).1 !! ("MC_" +:+ c) = Some (PyStr ""))
            ∨ ∃ r, r ∈ standardise_master (master i)
                   ∧ (get (stage1 i p).1 "SR_ISIN" = PyStr (isin_key r)
                      ∨ symbol_key r = upper (clean (get p "CompanyTicker")))
                   ∧ ∀ c, c ∈ mck →
                       (stage3 i p).1 !! ("MC_" +:+ c) = Some (get r c)).
  { intros ->. cbn [fst]. destruct (step2_probe _ _) as [r|].
    - destruct H2 as (Hr & Hs & _ & ->). right. exists r.
      split_and!; [done|by left|]. intros c Hc. by apply copy_cols_col.
    - rewrite H2. left. intros c Hc. by apply blank_cols_col. }
  destruct (has_mc_data (stage2 i p).1); [by apply Hkeep|].
  destruct (step3_probe _ _) as [r|]; [|by apply Hkeep].
  destruct H3 as (Hr & Hk & _ & ->). right. exists r.
  split_and!; [done|by right|]. intros c Hc. by apply copy_cols_col.
Qed.

Lemma get_copy_cols_col pre cols src dst c :
  c ∈ cols → get (copy_cols pre cols src dst) (pre +:+ c) = get src c.
Proof. intros Hc. unfold get at 1. by rewrite copy_cols_col. Qed.

Lemma mc_col_kept (i : inputs) (c : string) :
  c ∈ ["ABN"; "ACN"; "TradingStatus"] → c ∈ master_cols i →
  c ∈ mc_cols_keep (master_cols i).
Proof.
  intros Hc Hm. unfold mc_cols_keep, keep_in.
  apply list_elem_of_filter. split; [done|].
  repeat (apply elem_of_cons in Hc as [->|Hc]); [by_compute..|].
  by apply elem_of_nil in Hc.
Qed.

Lemma matched_row_has_data (i : inputs) (p r : row) (c : string) :
  step2_probe (mc_isin_lookup (standardise_master (master i))) (stage1 i p).1
  = Some r →
  c ∈ ["ABN"; "ACN"; "TradingStatus"] →
  c ∈ master_cols i →
  truthy (get r c) = true →
  has_mc_data (stage2 i p).1 = true.
Proof.
  intros Hp Hc Hm Ht.
  pose proof (stage2_cases i p) as H2. cbv zeta in H2. rewrite Hp in H2.
  destruct H2 as (_ & _ & _ & H2). rewrite H2. cbn [fst].
  pose proof (mc_col_kept i c Hc Hm) as Hk.
  unfold has_mc_data.
  repeat (apply elem_of_cons in Hc as [->|Hc]).
  - rewrite (get_copy_cols_col "MC_" _ _ _ "ABN") by done. by rewrite Ht.
  - rewrite (get_copy_cols_col "MC_" _ _ _ "ACN") by done.
    rewrite Ht. by rewrite orb_true_r.
  - rewrite (get_copy_cols_col "MC_" _ _ _ "TradingStatus") by done.
    rewrite Ht. by rewrite orb_true_r.
  - by apply elem_of_nil in Hc.
Qed.

(** X8. When the fallback does leave an ISIN match alone: if step 2 joined
    the row to a tertiary row that has a non-empty ABN, ACN or TradingStatus
    cell in a column of the tertiary header, step 3 skips the row, leaves
    every field as step 2 set it and does not count it. *)
Theorem fallback_skips_identified_match (i : inputs) (p r : row) (c : string) :
  step2_probe (mc_isin_lookup (standardise_master (master i))) (stage1 i p).1
  = Some r →
  c ∈ ["ABN"; "ACN"; "TradingStatus"] →
  c ∈ master_cols i →
  truthy (get r c) = true →
  (stage2 i p).2 = true ∧ stage3 i p = ((stage2 i p).1, false).
Proof.
  intros Hp Hc Hm Ht. split.
  - pose proof (stage2_cases i p) as H2. cbv zeta in H2. rewrite Hp in H2.
    destruct H2 as (_ & _ & _ & H2). by rewrite H2.
  - apply fallback_keeps_rows_with_mc_data.
    by apply (matched_row_has_data i p r c).
Qed.

(** ** The counters *)

Lemma hits_le_length {A : Type} (f : A → row * bool) (l : list A) :
  (hits f l ≤ length l)%nat.
Proof. unfold hits. apply length_filter. Qed.

Lemma filter_lengths_le {A : Type} (P Q R : A → Prop)
    `{∀ x, Decision (P x)} `{∀ x, Decision (Q x)} `{∀ x, Decision (R x)}
    (l : list A) :
  (∀ x, P x → Q x ∨ R x) →
  (length (filter P l) ≤ length (filter Q l) + length (filter R l))%nat.
Proof.
  intros HPQ. induction l as [|a l IH]; [done|].
  rewrite !filter_cons.
  destruct (decide (P a)) as [HP|HP]; simpl.
  - destruct (HPQ a HP) as [HQ|HR].
    + rewrite (decide_True (P:=Q a)) by done. simpl.
      destruct (decide (R a)); simpl; lia.
    + rewrite (decide_True (P:=R a)) by done. simpl.
      destruct (decide (Q a)); simpl; lia.
  - destruct (decide (Q a)), (decide (R a)); simpl; lia.
Qed.

Lemma filter_lengths_exclusive {A : Type} (P Q : A → Prop)
    `{∀ x, Decision (P x)} `{∀ x, Decision (Q x)} (l : list A) :
  (∀ x, P x → Q x → False) →
  (length (filter P l) + length (filter Q l) ≤ length l)%nat.
Proof.
  intros HPQ. induction l as [|a l IH]; [done|].
  rewrite !filter_cons.
  destruct (decide (P a)) as [HP|HP], (decide (Q a)) as [HQ|HQ]; simpl;
    [by destruct (HPQ a)|lia..].
Qed.

Lemma count_rows_fmap {A : Type} (cond : row → bool) (f : A → row) (l : list A) :
  count_rows cond (f <$> l) = length (filter (λ x, cond (f x) = true) l).
Proof.
  unfold count_rows. induction l as [|a l IH]; [done|].
  rewrite fmap_cons, !filter_cons.
  destruct (decide (cond (f a) = true)); simpl; by rewrite IH.
Qed.

Lemma stage3_hit_no_data (i : inputs) (p : row) :
  (stage3 i p).2 = true → has_mc_data (stage2 i p).1 = false.
Proof.
  intros Hh. destruct (has_mc_data (stage2 i p).1) eqn:Hd; [|done].
  by rewrite (fallback_keeps_rows_with_mc_data i p Hd) in Hh.
Qed.

(** X9. No counter exceeds the number of primary rows, and the rows step 3
    counts are among those that have none of [MC_ABN], [MC_ACN] and
    [MC_TradingStatus] after step 2: the step-3 count plus the number of
    rows that have one of them is at most the number of rows. *)
Theorem counters_bounded (i : inputs) :
  (n_step1 (main i) ≤ length (sirca i))%nat
  ∧ (n_step2 (main i) ≤ length (sirca i))%nat
  ∧ (n_step3 (main i) + count_rows has_mc_data (after_step2 i).2
     ≤ length (sirca i))%nat.
Proof.
  destruct (counters_main i) as (-> & -> & ->).
  split_and!; [apply hits_le_length..|].
  rewrite after_step2_rows, count_rows_fmap. unfold hits.
  apply filter_lengths_exclusive. intros p H3 Hd.
  apply stage3_hit_no_data in H3. congruence.
Qed.

Lemma get_clean_master_row (r : row) (c : string) :
  c ≠ "ISIN" → c ≠ "Symbol" → get (clean_master_row r) c = get r c.
Proof. intros H1 H2. unfold get. by rewrite clean_master_row_other. Qed.

(** X10. The printed total of MasterCompany matches, [n_step2 + n_step3],
    is at most the number of rows when the tertiary header has one of the
    columns ABN, ACN, TradingStatus and every tertiary row has a non-empty
    cell in it: no row is then counted by both steps. *)
Theorem total_matches_bounded (i : inputs) (c : string) :
  c ∈ ["ABN"; "ACN"; "TradingStatus"] →
  c ∈ master_cols i →
  (∀ r, r ∈ master i → truthy (get r c) = true) →
  (n_step2 (main i) + n_step3 (main i) ≤ length (sirca i))%nat.
Proof.
  intros Hc Hm Hall. destruct (counters_main i) as (_ & -> & ->).
  unfold hits. apply filter_lengths_exclusive. intros p H2 H3.
  pose proof (stage2_cases i p) as Hcase. cbv zeta in Hcase.
  destruct (step2_probe _ _) as [r|] eqn:Hp; [|by rewrite Hcase in H2].
  destruct Hcase as (Hr & _).
  apply list_elem_of_fmap in Hr as (r0 & -> & Hr0).
  assert (Ht : truthy (get (clean_master_row r0) c) = true).
  { rewrite get_clean_master_row; [by apply Hall| |];
      repeat (apply elem_of_cons in Hc as [->|Hc]); try done;
      by apply elem_of_nil in Hc. }
  pose proof (matched_row_has_data i p _ c Hp Hc Hm Ht) as Hd.
  apply stage3_hit_no_data in H3. congruence.
Qed.

(** ** The keys of the indexes *)

Lemma index_dom {K : Type} `{Countable K} (key : row → K) (ok : K → bool)
    (rows : list row) (k : K) :
  k ∈ dom (fold_left (index_step key ok) rows ∅)
  ↔ ok k = true ∧ ∃ r, r ∈ rows ∧ key r = k.
Proof.
  rewrite elem_of_dom, index_lookup, <- first_with_is_Some.
  destruct (ok k).
  - split; [by intros ?|by intros [_ ?]].
  - split; [by intros [? ?]|by intros [? _]].
Qed.

Lemma lookup_is_Some_eq {K A : Type} `{Countable K} (m1 m2 : gmap K A) (k : K) :
  m1 !! k = m2 !! k → k ∈ dom m1 ↔ k ∈ dom m2.
Proof. intros Heq. by rewrite !elem_of_dom, Heq. Qed.

(** X11. An index has a key exactly when the key is not empty and some row
    of the collection has it: every row with a non-empty key can be found
    through its key, and nothing else is in the index. *)
Theorem index_keys (secref master : list row) :
  (∀ k, k ∈ dom (sr_lookup secref)
        ↔ k ≠ ("", "") ∧ ∃ r, r ∈ secref ∧ sr_key r = k)
  ∧ (∀ k, k ∈ dom (mc_isin_lookup master)
          ↔ k ≠ "" ∧ ∃ r, r ∈ master ∧ isin_key r = k)
  ∧ (∀ k, k ∈ dom (mc_symbol_lookup master)
          ↔ k ≠ "" ∧ ∃ r, r ∈ master ∧ symbol_key r = k).
Proof.
  split_and!; intros k.
  - rewrite <- nonempty_pair_true, <- index_dom.
    apply lookup_is_Some_eq. by rewrite sr_lookup_lookup, index_lookup.
  - rewrite <- nonempty_true. apply (index_dom isin_key nonempty).
  - rewrite <- nonempty_true. apply (index_dom symbol_key nonempty).
Qed.

(** ** The header and the cells of the written file *)

Lemma header_elem (i : inputs) (c : string) :
  c ∈ header (output (main i))
  ↔ (c ∈ output_cols_fixed ∧ c ∈ run_schema i)
    ∨ (c ∈ sirca_cols i ∧ c ∉ skip).
Proof.
  rewrite header_split, elem_of_app. split.
  - intros [Hk|Ha].
    + apply list_elem_of_filter in Hk as [? ?]. by left.
    + apply list_elem_of_filter in Ha as [[_ ?] ?]. by right.
  - intros [[Hs Hf]|[Hc Hs]].
    + left. by apply list_elem_of_filter.
    + destruct (decide (c ∈ filter (λ c, c ∈ run_schema i) output_cols_fixed))
        as [Hin|Hout]; [by left|].
      right. by apply list_elem_of_filter.
Qed.

Lemma skip_not_fixed (c : string) : c ∈ skip → c ∉ output_cols_fixed.
Proof.
  unfold skip. rewrite !elem_of_union, !elem_of_singleton.
  intros [[->| ->]| ->]; by_compute.
Qed.

(** X12. A column is in the output header exactly when it is a name of the
    fixed list that the merged schema has, or a column of the primary header
    outside the exclusion set.  So every primary column outside the
    exclusion set is written, and the three excluded names never are. *)
Theorem header_columns (i : inputs) :
  (∀ c, c ∈ header (output (main i))
        ↔ (c ∈ output_cols_fixed ∧ c ∈ run_schema i)
          ∨ (c ∈ sirca_cols i ∧ c ∉ skip))
  ∧ (∀ c, c ∈ sirca_cols i → c ∉ skip → c ∈ header (output (main i)))
  ∧ (∀ c, c ∈ skip → c ∉ header (output (main i))).
Proof.
  split_and!.
  - apply header_elem.
  - intros c Hc Hs. apply header_elem. by right.
  - intros c Hs [[Hf _]|[_ Hn]]%header_elem; [|done].
    by apply skip_not_fixed in Hf.
Qed.

Lemma output_cols_fixed_NoDup : NoDup output_cols_fixed.
Proof. by_compute. Qed.

(** X13. When the primary header has no repeated name, the output header
    has none either. *)
Theorem header_NoDup (i : inputs) :
  NoDup (sirca_cols i) → NoDup (header (output (main i))).
Proof.
  intros Hnd. rewrite header_split. apply NoDup_app. split_and!.
  - apply NoDup_filter, output_cols_fixed_NoDup.
  - intros c Hc [[Hn _] _]%list_elem_of_filter. done.
  - by apply NoDup_filter.
Qed.

Lemma SR_names_fixed :
  Forall (λ c, "SR_" +:+ c ∈ output_cols_fixed) sr_cols_all.
Proof. by_compute. Qed.

Lemma MC_names_fixed :
  Forall (λ c, c ≠ "ISIN" → "MC_" +:+ c ∈ output_cols_fixed) mc_cols_all.
Proof. by_compute. Qed.

Lemma keep_in_elem (hdr cols : list string) (c : string) :
  c ∈ keep_in hdr cols ↔ c ∈ hdr ∧ c ∈ cols.
Proof. unfold keep_in. by rewrite list_elem_of_filter. Qed.

(** X14. With at least one primary row, every kept secondary column [c] is
    written as [SR_c] and every kept tertiary column [c] other than ISIN is
    written as [MC_c].  The joined [MC_ISIN] is not in the fixed list: it is
    a column of the output exactly when the primary header itself has a
    column of this name. *)
Theorem joined_columns_written (i : inputs) :
  (sirca i ≠ [] →
   (∀ c, c ∈ sr_cols_keep (secref_cols i) →
      "SR_" +:+ c ∈ header (output (main i)))
   ∧ (∀ c, c ∈ mc_cols_keep (master_cols i) → c ≠ "ISIN" →
        "MC_" +:+ c ∈ header (output (main i))))
  ∧ ("MC_ISIN" ∈ header (output (main i)) ↔ "MC_ISIN" ∈ sirca_cols i).
Proof.
  split.
  - intros Hne. destruct (sirca i) as [|p0 ps] eqn:Hs; [done|].
    assert (Hschema : run_schema i = merged_schema i (dom p0)).
    { unfold run_schema. by rewrite Hs. }
    split.
    + intros c Hk. pose proof Hk as [_ Hall]%keep_in_elem.
      apply header_elem. left. split.
      * by apply (proj1 (Forall_forall _ _) SR_names_fixed).
      * rewrite Hschema. unfold merged_schema.
        apply elem_of_union_l, elem_of_union_r, elem_of_prefixed.
        by exists c.
    + intros c Hk Hc. pose proof Hk as [_ Hall]%keep_in_elem.
      apply header_elem. left. split.
      * by apply (proj1 (Forall_forall _ _) MC_names_fixed).
      * rewrite Hschema. unfold merged_schema.
        apply elem_of_union_r, elem_of_prefixed. by exists c.
  - rewrite header_elem. split.
    + intros [[Hf _]|[Hc _]]; [|done]. exfalso. revert Hf. by_compute.
    + intros Hc. right. split; [done|]. by_compute.
Qed.

Lemma item_lookup_eq (m m' : row) (c : string) :
  m !! c = m' !! c → item m c = item m' c.
Proof. unfold item. by intros ->. Qed.

(** X15. What is written for a primary row: under every column of the
    header, the record at the row's position holds the merged row's cell
    (the empty string when the row has no such field or holds [None]
    there); and under a column that is not a joined [SR_] or [MC_] name it
    holds the primary row's own cell, cleaned if it is a key field. *)
Theorem written_cells (i : inputs) (n : nat) (p : row) (c : string) :
  sirca i !! n = Some p →
  c ∈ header (output (main i)) →
  ∃ rec, records (output (main i)) !! n = Some rec
    ∧ cell (output (main i)) rec c = Some (item (stage3 i p).1 c)
    ∧ (c ∉ prefixed "SR_" (sr_cols_keep (secref_cols i)) →
       c ∉ prefixed "MC_" (mc_cols_keep (master_cols i)) →
       cell (output (main i)) rec c = Some (item (clean_sirca_row p) c)).
Proof.
  intros Hp Hc.
  assert (Hm : merged (main i) !! n = Some (stage3 i p).1).
  { apply merged_lookup. eauto. }
  exists (item (stage3 i p).1 <$> header (output (main i))).
  assert (Hcell : cell (output (main i))
                    (item (stage3 i p).1 <$> header (output (main i))) c
                  = Some (item (stage3 i p).1 c)).
  { by rewrite cell_main, decide_True. }
  split_and!; [|done|].
  - by rewrite records_main, list_lookup_fmap, Hm.
  - intros Hsr Hmc. rewrite Hcell. f_equal. apply item_lookup_eq.
    by apply stage3_other.
Qed.

(** ** Blank keys *)



(** X16. A primary row whose two key cells are blank (absent, [None], empty
    or made of whitespace only) is never joined in step 1, whatever the
    secondary collection holds: it gets empty [SR_] fields and is not
    counted. *)
Theorem blank_keys_never_join (i : inputs) (p : row) :
  blank_cell (get p "MS_CompanyID") = true →
  blank_cell (get p "MS_SecurityID") = true →
  stage1 i p
  = (blank_cols "SR_" (sr_cols_keep (secref_cols i)) (clean_sirca_row p), false).
Proof.
  intros H1%clean_empty H2%clean_empty.
  pose proof (stage1_cases i p) as Hc. cbv zeta in Hc.
  destruct (step1_probe _ _) as [r|]; [|done].
  destruct Hc as (_ & _ & Hk & _). by rewrite sirca_key_clean, H1, H2 in Hk.
Qed.

(** ** The summary *)

Lemma gcodes_raised (l : list row) (e : pyerror) :
  fold_left
    (λ (acc : result (gset pyval)) (r : row),
       s ← acc;
       match r !! "Gcode" with
       | Some v => mret ({[ v ]} ∪ s)
       | None => inl (KeyError "Gcode")
       end)
    l (inl e) = inl e.
Proof. induction l as [|r l IH]; [done|]. simpl. apply IH. Qed.

Lemma gcodes_from (l : list row) (s : gset pyval) :
  match fold_left
          (λ (acc : result (gset pyval)) (r : row),
             s ← acc;
             match r !! "Gcode" with
             | Some v => mret ({[ v ]} ∪ s)
             | None => inl (KeyError "Gcode")
             end)
          l (inr s)
  with
  | inl e => e = KeyError "Gcode" ∧ ∃ r, r ∈ l ∧ r !! "Gcode" = None
  | inr _ => ∀ r, r ∈ l → is_Some (r !! "Gcode")
  end.
Proof.
  revert s. induction l as [|r l IH]; intros s.
  - simpl. intros r Hr. by apply elem_of_nil in Hr.
  - simpl. destruct (r !! "Gcode") as [v|] eqn:Hg; simpl.
    + specialize (IH ({[ v ]} ∪ s)). destruct (fold_left _ l _) as [e|g].
      * destruct IH as (-> & r' & Hr' & Hn). split; [done|].
        exists r'. split; [by right|done].
      * intros r' [->|Hr']%elem_of_cons; [by rewrite Hg|by apply IH].
    + rewrite gcodes_raised. split; [done|]. exists r. split; [left|done].
Qed.

Lemma gcodes_cases (merged : list row) :
  match gcodes merged with
  | inl e => e = KeyError "Gcode" ∧ ∃ r, r ∈ merged ∧ r !! "Gcode" = None
  | inr _ => ∀ r, r ∈ merged → is_Some (r !! "Gcode")
  end.
Proof. apply gcodes_from. Qed.

Lemma counter_dom_from (vals : list pyval) (c : gmap pyval nat) :
  dom (fold_left (λ c v, <[v := S (default 0 (c !! v))]> c) vals c)
  = dom c ∪ list_to_set vals.
Proof.
  revert c. induction vals as [|v vals IH]; intros c; simpl.
  - by rewrite (right_id_L ∅ (∪)).
  - rewrite IH, dom_insert_L. apply set_eq. intros x. set_unfold. tauto.
Qed.

Lemma counter_dom (vals : list pyval) : dom (counter vals) = list_to_set vals.
Proof.
  unfold counter. rewrite counter_dom_from, dom_empty_L.
  by rewrite (left_id_L ∅ (∪)).
Qed.

Lemma sortable_no_None (vals : list pyval) :
  PyNone ∉ vals → sortable (counter vals) = true.
Proof.
  intros Hn. unfold sortable.
  rewrite bool_decide_eq_false_2; [done|].
  by rewrite counter_dom, elem_of_list_to_set.
Qed.

(** The summary, one exit after the other. *)
Lemma summary_unfold (merged : list row) :
  summary merged
  = match gcodes merged with
    | inl e => inl e
    | inr g =>
        if bool_decide (length merged = 0) then inl ZeroDivisionError
        else if negb (sortable
                        (counter ((λ r, get r "MC_TradingStatus") <$> merged)))
        then inl TypeError
        else if negb (sortable
                        (counter ((λ r, get r "SR_ActiveOrDelisted") <$> merged)))
        then inl TypeError
        else inr {| n_gcodes := size g;
                    n_sr := count_rows (λ r, truthy (get r "SR_CompanyId")) merged;
                    n_mc := count_rows has_mc_data merged;
                    n_isin := count_rows (λ r, truthy (get r "SR_ISIN")) merged;
                    status_counts :=
                      counter ((λ r, get r "MC_TradingStatus") <$> merged);
                    active_counts :=
                      counter ((λ r, get r "SR_ActiveOrDelisted") <$> merged) |}
    end.
Proof. unfold summary. by destruct (gcodes merged). Qed.


Lemma merged_Gcode (i : inputs) (p : row) :
  (stage3 i p).1 !! "Gcode" = p !! "Gcode".
Proof.
  rewrite stage3_other by not_prefixed. by apply clean_sirca_row_other.
Qed.

Lemma merged_missing_Gcode (i : inputs) :
  (∃ r, r ∈ merged (main i) ∧ r !! "Gcode" = None)
  ↔ ∃ p, p ∈ sirca i ∧ p !! "Gcode" = None.
Proof.
  rewrite merged_main. split.
  - intros (r & (p & -> & Hp)%list_elem_of_fmap & Hn).
    rewrite merged_Gcode in Hn. eauto.
  - intros (p & Hp & Hn). exists (stage3 i p).1. split.
    + apply list_elem_of_fmap. eauto.
    + by rewrite merged_Gcode.
Qed.

(** X17. How the summary ends after the file is written.  It raises
    [KeyError] exactly when some primary row has no [Gcode] field, and
    [ZeroDivisionError] exactly when there is no primary row at all. *)
Theorem summary_raises (i : inputs) :
  ((script i).2 = inl (KeyError "Gcode")
   ↔ ∃ p, p ∈ sirca i ∧ p !! "Gcode" = None)
  ∧ ((script i).2 = inl ZeroDivisionError ↔ sirca i = []).
Proof.
  unfold script. cbn [snd]. rewrite summary_unfold, <- merged_missing_Gcode.
  pose proof (gcodes_cases (merged (main i))) as Hg.
  assert (Hlen : length (merged (main i)) = 0 ↔ sirca i = []).
  { rewrite merged_main, length_fmap. apply length_zero_iff_nil. }
  destruct (gcodes (merged (main i))) as [e|g].
  - destruct Hg as (-> & r & Hr & Hn). split.
    + split; [eauto|done].
    + split; [done|]. intros Hs. apply Hlen in Hs.
      apply nil_length_inv in Hs. rewrite Hs in Hr. by apply elem_of_nil in Hr.
  - split.
    + split.
      * intros He. exfalso. revert He. case_bool_decide; [done|].
        destruct (negb _); [done|]. by destruct (negb _).
      * intros (r & Hr & Hn). apply Hg in Hr as [? Hr]. congruence.
    + rewrite <- Hlen. case_bool_decide; [done|]. split; [|done].
      destruct (negb _); [done|]. by destruct (negb _).
Qed.

Lemma str_only_get (r : row) (k : string) : str_only r → get r k ≠ PyNone.
Proof.
  intros Hr. unfold get. destruct (r !! k) as [v|] eqn:Hk; simpl; [|done].
  intros ->. by apply (Hr k).
Qed.

Lemma str_only_insert (r : row) (k : string) (v : pyval) :
  v ≠ PyNone → str_only r → str_only (<[k := v]> r).
Proof.
  intros Hv Hr k'. destruct (decide (k = k')) as [->|Hk].
  - rewrite lookup_insert_eq. congruence.
  - rewrite lookup_insert_ne by done. apply Hr.
Qed.

Lemma str_only_clean_field (k : string) (r : row) :
  str_only r → str_only (clean_field k r).
Proof. intros Hr. by apply str_only_insert. Qed.

Lemma str_only_fill (pre : string) (v : string → pyval) (cols : list string)
    (dst : row) :
  (∀ c, v c ≠ PyNone) → str_only dst → str_only (fill_cols pre v cols dst).
Proof.
  intros Hv. revert dst. induction cols as [|a cols IH]; intros dst Hd; [done|].
  rewrite fill_cols_cons. apply IH. by apply str_only_insert.
Qed.

Lemma str_only_copy_cols pre cols (src dst : row) :
  str_only src → str_only dst → str_only (copy_cols pre cols src dst).
Proof.
  intros Hs Hd. apply (str_only_fill pre (get src)); [|done].
  intros c. by apply str_only_get.
Qed.

Lemma str_only_blank_cols pre cols (dst : row) :
  str_only dst → str_only (blank_cols pre cols dst).
Proof. intros Hd. by apply (str_only_fill pre (λ _, PyStr "")). Qed.

Lemma str_only_stage3 (i : inputs) (p : row) :
  str_only p →
  (∀ r, r ∈ secref i → str_only r) →
  (∀ r, r ∈ master i → str_only r) →
  str_only (stage3 i p).1.
Proof.
  intros Hp Hsec Hmas.
  assert (Hsec' : ∀ r, r ∈ standardise_secref (secref i) → str_only r).
  { intros r (r0 & -> & Hr0)%list_elem_of_fmap. unfold clean_secref_row.
    by apply str_only_clean_field, str_only_clean_field, str_only_clean_field,
      Hsec. }
  assert (Hmas' : ∀ r, r ∈ standardise_master (master i) → str_only r).
  { intros r (r0 & -> & Hr0)%list_elem_of_fmap. unfold clean_master_row.
    by apply str_only_clean_field, str_only_clean_field, Hmas. }
  assert (H1 : str_only (stage1 i p).1).
  { pose proof (stage1_cases i p) as Hc. cbv zeta in Hc.
    assert (Hp' : str_only (clean_sirca_row p)).
    { unfold clean_sirca_row.
      by apply str_only_clean_field, str_only_clean_field. }
    destruct (step1_probe _ _) as [r|].
    - destruct Hc as (Hr & _ & _ & ->). apply str_only_copy_cols; auto.
    - rewrite Hc. by apply str_only_blank_cols. }
  assert (H2 : str_only (stage2 i p).1).
  { pose proof (stage2_cases i p) as Hc. cbv zeta in Hc.
    destruct (step2_probe _ _) as [r|].
    - destruct Hc as (Hr & _ & _ & ->). apply str_only_copy_cols; auto.
    - rewrite Hc. by apply str_only_blank_cols. }
  pose proof (stage3_cases i p) as Hc. cbv zeta in Hc.
  destruct (has_mc_data _); [by rewrite Hc|].
  destruct (step3_probe _ _) as [r|]; [|by rewrite Hc].
  destruct Hc as (Hr & _ & _ & ->). apply str_only_copy_cols; auto.
Qed.

Lemma no_None_cells (rows : list row) (k : string) :
  (∀ r, r ∈ rows → str_only r) → PyNone ∉ (λ r, get r k) <$> rows.
Proof.
  intros Hall (r & Heq & Hr)%list_elem_of_fmap.
  by apply (str_only_get r k (Hall r Hr)).
Qed.

(** X18. When no cell of the three collections is [None] (no line of the
    input files is shorter than its header), the summary runs to its end
    exactly when there is a primary row and every primary row has a [Gcode]
    field. *)
Theorem summary_succeeds (i : inputs) :
  (∀ r, r ∈ sirca i → str_only r) →
  (∀ r, r ∈ secref i → str_only r) →
  (∀ r, r ∈ master i → str_only r) →
  (∃ s, (script i).2 = inr s)
  ↔ sirca i ≠ [] ∧ ∀ p, p ∈ sirca i → is_Some (p !! "Gcode").
Proof.
  intros Hsir Hsec Hmas.
  assert (Hstr : ∀ r, r ∈ merged (main i) → str_only r).
  { rewrite merged_main. intros r (p & -> & Hp)%list_elem_of_fmap.
    apply str_only_stage3; auto. }
  assert (Hlen : length (merged (main i)) = 0 ↔ sirca i = []).
  { rewrite merged_main, length_fmap. apply length_zero_iff_nil. }
  assert (Hg : (∀ r, r ∈ merged (main i) → is_Some (r !! "Gcode"))
               ↔ ∀ p, p ∈ sirca i → is_Some (p !! "Gcode")).
  { rewrite merged_main. split.
    - intros H p Hp. rewrite <- (merged_Gcode i). apply H.
      apply list_elem_of_fmap. eauto.
    - intros H r (p & -> & Hp)%list_elem_of_fmap. rewrite merged_Gcode. auto. }
  unfold script. cbn [snd]. rewrite summary_unfold.
  rewrite !sortable_no_None by by apply no_None_cells.
  rewrite <- Hg, <- Hlen.
  pose proof (gcodes_cases (merged (main i))) as Hc.
  destruct (gcodes (merged (main i))) as [e|g].
  - destruct Hc as (_ & r & Hr & Hn). split; [by intros [? ?]|].
    intros [_ Hall]. apply Hall in Hr as [? Hr]. congruence.
  - case_bool_decide as Hz; cbn [negb].
    + split; [by intros [? ?]|]. by intros [? _].
    + split; [done|]. eauto.
Qed.

Lemma filter_length_mono {A : Type} (P Q : A → Prop)
    `{∀ x, Decision (P x)} `{∀ x, Decision (Q x)} (l : list A) :
  (∀ x, P x → Q x) → (length (filter P l) ≤ length (filter Q l))%nat.
Proof.
  intros HPQ. induction l as [|a l IH]; [done|].
  rewrite !filter_cons. destruct (decide (P a)) as [HP|HP]; simpl.
  - rewrite decide_True by auto. simpl. lia.
  - destruct (decide (Q a)); simpl; lia.
Qed.

Lemma summary_counts (merged : list row) (s : stats) :
  summary merged = inr s →
  n_sr s = count_rows (λ r, truthy (get r "SR_CompanyId")) merged
  ∧ n_mc s = count_rows has_mc_data merged
  ∧ n_isin s = count_rows (λ r, truthy (get r "SR_ISIN")) merged.
Proof.
  rewrite summary_unfold. destruct (gcodes merged); [done|].
  case_bool_decide; [done|].
  destruct (negb _); [done|]. destruct (negb _); [done|].
  by intros [= <-].
Qed.

Lemma stage1_miss_blank_SR (i : inputs) (p : row) (c : string) :
  c ∈ sr_cols_all → c ∈ secref_cols i →
  (stage1 i p).2 = false → get (stage3 i p).1 ("SR_" +:+ c) = PyStr "".
Proof.
  intros Hall Hc Hmiss. unfold get. rewrite stage3_SR.
  pose proof (stage1_cases i p) as Hcase. cbv zeta in Hcase.
  destruct (step1_probe _ _) as [r|].
  - destruct Hcase as (_ & _ & _ & Heq). by rewrite Heq in Hmiss.
  - rewrite Hcase. cbn [fst]. rewrite blank_cols_col; [done|].
    by apply keep_in_elem.
Qed.

Lemma not_true_false (b : bool) : b ≠ true → b = false.
Proof. by destruct b. Qed.

Lemma no_match_no_data (i : inputs) (p : row) :
  "ABN" ∈ master_cols i → "ACN" ∈ master_cols i →
  "TradingStatus" ∈ master_cols i →
  (stage2 i p).2 = false → (stage3 i p).2 = false →
  has_mc_data (stage3 i p).1 = false.
Proof.
  intros Habn Hacn Hts H2 H3.
  unfold stage3 in *. rewrite step3_row_miss by done.
  pose proof (stage2_cases i p) as Hcase. cbv zeta in Hcase.
  destruct (step2_probe _ _) as [r|].
  - destruct Hcase as (_ & _ & _ & Heq). by rewrite Heq in H2.
  - rewrite Hcase. cbn [fst]. unfold has_mc_data, get.
    rewrite (blank_cols_col "MC_" _ _ "ABN"),
      (blank_cols_col "MC_" _ _ "ACN"),
      (blank_cols_col "MC_" _ _ "TradingStatus");
      [done|apply keep_in_elem; split; [done|by_compute]..].
Qed.

(** X19. When the summary runs to its end, its counts relate to the join
    counters: every row step 2 counted has an ISIN ([n_step2 ≤ n_isin]);
    with ISIN, resp. CompanyId, in the secondary header only rows step 1
    counted have an [SR_ISIN], resp. an [SR_CompanyId]; and with ABN, ACN
    and TradingStatus in the tertiary header the rows with MasterCompany
    data are among those step 2 or step 3 counted. *)
Theorem summary_counts_bounded (i : inputs) (s : stats) :
  (script i).2 = inr s →
  (n_step2 (main i) ≤ n_isin s)%nat
  ∧ ("ISIN" ∈ secref_cols i → (n_isin s ≤ n_step1 (main i))%nat)
  ∧ ("CompanyId" ∈ secref_cols i → (n_sr s ≤ n_step1 (main i))%nat)
  ∧ ("ABN" ∈ master_cols i → "ACN" ∈ master_cols i →
     "TradingStatus" ∈ master_cols i →
     (n_mc s ≤ n_step2 (main i) + n_step3 (main i))%nat).
Proof.
  intros (Hsr & Hmc & Hisin)%summary_counts.
  destruct (counters_main i) as (H1 & H2 & H3).
  rewrite Hsr, Hmc, Hisin, H1, H2, H3, merged_main, !count_rows_fmap.
  unfold hits. split_and!.
  - apply filter_length_mono. intros p Hp.
    apply step2_match_hit in Hp as (x & Hx & Hne).
    change "SR_ISIN" with ("SR_" +:+ "ISIN"). unfold get.
    rewrite stage3_SR. fold (get (stage1 i p).1 ("SR_" +:+ "ISIN")).
    change ("SR_" +:+ "ISIN") with "SR_ISIN". rewrite Hx.
    apply truthy_true. eauto.
  - intros Hc. apply filter_length_mono. intros p Hp.
    destruct ((stage1 i p).2) eqn:Hh; [done|].
    change "SR_ISIN" with ("SR_" +:+ "ISIN") in Hp.
    rewrite (stage1_miss_blank_SR i p "ISIN") in Hp; [done|by_compute|done..].
  - intros Hc. apply filter_length_mono. intros p Hp.
    destruct ((stage1 i p).2) eqn:Hh; [done|].
    change "SR_CompanyId" with ("SR_" +:+ "CompanyId") in Hp.
    rewrite (stage1_miss_blank_SR i p "CompanyId") in Hp;
      [done|by_compute|done..].
  - intros Habn Hacn Hts. apply filter_lengths_le. intros p Hp.
    destruct ((stage2 i p).2) eqn:Hh2; [by left|].
    destruct ((stage3 i p).2) eqn:Hh3; [by right|].
    by rewrite no_match_no_data in Hp.
Qed.

(** ** The further theorems on concrete inputs *)

Lemma str_only_cells (r : row) :
  map_Forall (λ _ v, v ≠ PyNone) r → str_only r.
Proof. intros Hall k Hk. by apply (Hall k PyNone). Qed.

Lemma primary_fields_kept_witness :
  (stage3 two_row_input isin_matched_primary).1 !! "CompanyTicker"
  = isin_matched_primary !! "CompanyTicker".
Proof.
  destruct (primary_fields_kept two_row_input isin_matched_primary
              "CompanyTicker") as [_ H]; [not_prefixed..|].
  apply H; discriminate.
Defined.

Lemma sr_fields_source_witness :
  "ISIN" ∈ sr_cols_keep (secref_cols identified_input)
  ∧ (stage3 identified_input gcode_primary).1 !! ("SR_" +:+ "ISIN")
    = Some (PyStr "AU000000XYZ2").
Proof.
  assert (H : "ISIN" ∈ sr_cols_keep (secref_cols identified_input))
    by by_compute.
  split; [exact H|].
  exact (eq_trans (sr_fields_source identified_input gcode_primary "ISIN" H)
           eq_refl).
Defined.

Lemma fallback_skips_identified_match_witness :
  (stage2 identified_input gcode_primary).2 = true
  ∧ stage3 identified_input gcode_primary
    = ((stage2 identified_input gcode_primary).1, false).
Proof.
  apply (fallback_skips_identified_match identified_input gcode_primary
           (clean_master_row tertiary_by_symbol) "ABN").
  - by_compute.
  - by_compute.
  - by_compute.
  - vm_compute. reflexivity.
Defined.

Lemma total_matches_bounded_witness :
  (n_step2 (main identified_input) + n_step3 (main identified_input)
   ≤ length (sirca identified_input))%nat.
Proof.
  apply (total_matches_bounded identified_input "ABN"); [by_compute..|].
  intros r Hr. change (master identified_input) with [tertiary_by_symbol] in Hr.
  apply list_elem_of_singleton in Hr as ->. vm_compute. reflexivity.
Defined.

Lemma header_NoDup_witness : NoDup (header (output (main two_row_input))).
Proof. apply header_NoDup. by_compute. Defined.

Lemma written_cells_witness :
  ∃ rec, records (output (main two_row_input)) !! 0 = Some rec
    ∧ cell (output (main two_row_input)) rec "CompanyTicker" = Some "XYZ".
Proof.
  destruct (written_cells two_row_input 0 isin_matched_primary "CompanyTicker")
    as (rec & Hrec & _ & Hcell); [reflexivity|by_compute|].
  exists rec. split; [exact Hrec|].
  rewrite Hcell by not_prefixed. vm_compute. reflexivity.
Defined.

Lemma blank_keys_never_join_witness :
  (stage1 two_row_input blank_key_primary).2 = false.
Proof.
  rewrite (blank_keys_never_join two_row_input blank_key_primary);
    [reflexivity|vm_compute; reflexivity..].
Defined.

Lemma identified_input_str_only :
  (∀ r, r ∈ sirca identified_input → str_only r)
  ∧ (∀ r, r ∈ secref identified_input → str_only r)
  ∧ (∀ r, r ∈ master identified_input → str_only r).
Proof.
  split_and!; intros r Hr.
  - change (sirca identified_input) with [gcode_primary] in Hr.
    apply list_elem_of_singleton in Hr as ->. apply str_only_cells. by_compute.
  - change (secref identified_input) with [xyz_secondary] in Hr.
    apply list_elem_of_singleton in Hr as ->. apply str_only_cells. by_compute.
  - change (master identified_input) with [tertiary_by_symbol] in Hr.
    apply list_elem_of_singleton in Hr as ->. apply str_only_cells. by_compute.
Defined.

Lemma summary_succeeds_witness : ∃ s, (script identified_input).2 = inr s.
Proof.
  destruct identified_input_str_only as (H1 & H2 & H3).
  apply (proj2 (summary_succeeds identified_input H1 H2 H3)).
  split; [discriminate|]. intros p Hp.
  change (sirca identified_input) with [gcode_primary] in Hp.
  apply list_elem_of_singleton in Hp as ->. vm_compute. eexists. reflexivity.
Defined.

Lemma summary_counts_bounded_witness :
  ∃ s, (script identified_input).2 = inr s
       ∧ (n_step2 (main identified_input) ≤ n_isin s)%nat.
Proof.
  assert (H : {s | (script identified_input).2 = inr s}).
  { vm_compute. eexists. reflexivity. }
  destruct H as [s Hs]. exists s. split; [exact Hs|].
  exact (proj1 (summary_counts_bounded identified_input s Hs)).
Defined.

(** ** First match wins, from the indexes to the merged rows *)

Lemma item_nonempty_row (r : row) (k : string) : item r k ≠ "" → r ≠ ∅.
Proof. intros Hk ->. by rewrite item_empty in Hk. Qed.

Lemma upper_nonempty (s : string) : upper s ≠ "" → s ≠ "".
Proof. by intros Hu ->. Qed.

(** The step-1 loop body on a row whose key is first held by [r]. *)
Lemma step1_row_first (secref : list row) (cols : list string) (p r : row) :
  sirca_key p ≠ ("", "") →
  first_at sr_key (sirca_key p) secref r →
  step1_row (sr_lookup secref) cols p = (copy_cols "SR_" cols r p, true).
Proof.
  intros Hk Hf.
  assert (Hp : step1_probe (sr_lookup secref) p = Some r).
  { apply (lookups_first_at secref []). by split. }
  unfold step1_row. rewrite Hp. cbn [row_truthy default].
  rewrite bool_decide_eq_true_2; [done|].
  apply sr_key_nonempty_row. destruct Hf as (_ & _ & _ & -> & _). done.
Qed.

(** The step-2 loop body on a row whose [SR_ISIN] is first held by [r]. *)
Lemma step2_row_first (master : list row) (cols : list string) (m r : row)
    (s : string) :
  get m "SR_ISIN" = PyStr s → s ≠ "" →
  first_at isin_key s master r →
  step2_row (mc_isin_lookup master) cols m = (copy_cols "MC_" cols r m, true).
Proof.
  intros Hs Hne Hf.
  assert (Hp : step2_probe (mc_isin_lookup master) m = Some r).
  { apply (lookups_first_at [] master). eauto. }
  unfold step2_row. rewrite Hp. cbn [row_truthy default].
  rewrite bool_decide_eq_true_2; [done|].
  apply (item_nonempty_row r "ISIN"). destruct Hf as (_ & _ & _ & Hr & _).
  unfold isin_key in Hr. by rewrite Hr.
Qed.

(** The step-3 loop body on an eligible row whose ticker is first held by
    [r]. *)
Lemma step3_row_first (master : list row) (cols : list string) (m r : row) :
  has_mc_data m = false →
  upper (clean (get m "CompanyTicker")) ≠ "" →
  first_at symbol_key (upper (clean (get m "CompanyTicker"))) master r →
  step3_row (mc_symbol_lookup master) cols m = (copy_cols "MC_" cols r m, true).
Proof.
  intros Hd Hne Hf.
  assert (Hp : step3_probe (mc_symbol_lookup master) m = Some r).
  { apply (lookups_first_at [] master). by split. }
  unfold step3_row. rewrite Hd, Hp. cbn [row_truthy default].
  rewrite bool_decide_eq_true_2; [done|].
  apply (item_nonempty_row r "Symbol"), upper_nonempty.
  destruct Hf as (_ & _ & _ & Hr & _). unfold symbol_key in Hr. by rewrite Hr.
Qed.

(** The rows of the three lists at the position of a primary row. *)
Lemma steps_lookup (i : inputs) (n : nat) (p : row) :
  sirca i !! n = Some p →
  (after_step1 i).2 !! n = Some (stage1 i p).1
  ∧ (after_step2 i).2 !! n = Some (stage2 i p).1
  ∧ merged (main i) !! n = Some (stage3 i p).1.
Proof.
  intros Hp. rewrite after_step1_rows, after_step2_rows, merged_main.
  rewrite !list_lookup_fmap, Hp. done.
Qed.

(** C4. First match wins.  Each of the three indexes holds, under a key, the
    first row of its collection (in input order) that has this key, whatever
    other rows the collection has, and the probe of each loop body returns
    that row.  Every join result reflects it: the loop body of each step
    counts the row and sets every kept [SR_] (resp. [MC_]) field to the cell
    of that first row; and in a run, the merged row of a primary row has the
    [SR_] cells of the first secondary row with its key, the row after step
    2 has the [MC_] cells of the first tertiary row with its ISIN (which the
    merged row keeps when step 3 skips it), and a row the fallback takes has
    the [MC_] cells of the first tertiary row with its ticker. *)
Theorem first_match_wins (secondary tertiary : list row) :
  (∀ k r, sr_lookup secondary !! k = Some r
          ↔ k ≠ ("", "") ∧ first_at sr_key k secondary r)
  ∧ (∀ k r, mc_isin_lookup tertiary !! k = Some r
            ↔ k ≠ "" ∧ first_at isin_key k tertiary r)
  ∧ (∀ k r, mc_symbol_lookup tertiary !! k = Some r
            ↔ k ≠ "" ∧ first_at symbol_key k tertiary r)
  ∧ (∀ p r, step1_probe (sr_lookup secondary) p = Some r
            ↔ sirca_key p ≠ ("", "")
              ∧ first_at sr_key (sirca_key p) secondary r)
  ∧ (∀ m r, step2_probe (mc_isin_lookup tertiary) m = Some r
            ↔ ∃ s, get m "SR_ISIN" = PyStr s ∧ s ≠ ""
                   ∧ first_at isin_key s tertiary r)
  ∧ (∀ m r, step3_probe (mc_symbol_lookup tertiary) m = Some r
            ↔ upper (clean (get m "CompanyTicker")) ≠ ""
              ∧ first_at symbol_key (upper (clean (get m "CompanyTicker")))
                  tertiary r)
  ∧ (∀ cols p r,
       sirca_key p ≠ ("", "") → first_at sr_key (sirca_key p) secondary r →
       (step1_row (sr_lookup secondary) cols p).2 = true
       ∧ ∀ c, c ∈ cols →
           (step1_row (sr_lookup secondary) cols p).1 !! ("SR_" +:+ c)
           = Some (get r c))
  ∧ (∀ cols m s r,
       get m "SR_ISIN" = PyStr s → s ≠ "" → first_at isin_key s tertiary r →
       (step2_row (mc_isin_lookup tertiary) cols m).2 = true
       ∧ ∀ c, c ∈ cols →
           (step2_row (mc_isin_lookup tertiary) cols m).1 !! ("MC_" +:+ c)
           = Some (get r c))
  ∧ (∀ cols m r,
       has_mc_data m = false →
       upper (clean (get m "CompanyTicker")) ≠ "" →
       first_at symbol_key (upper (clean (get m "CompanyTicker"))) tertiary r →
       (step3_row (mc_symbol_lookup tertiary) cols m).2 = true
       ∧ ∀ c, c ∈ cols →
           (step3_row (mc_symbol_lookup tertiary) cols m).1 !! ("MC_" +:+ c)
           = Some (get r c))
  ∧ (∀ i n p r,
       sirca i !! n = Some p →
       sirca_key (clean_sirca_row p) ≠ ("", "") →
       first_at sr_key (sirca_key (clean_sirca_row p))
         (standardise_secref (secref i)) r →
       ∃ m, merged (main i) !! n = Some m
            ∧ ∀ c, c ∈ sr_cols_keep (secref_cols i) →
                m !! ("SR_" +:+ c) = Some (get r c))
  ∧ (∀ i n m1 s r,
       (after_step1 i).2 !! n = Some m1 →
       get m1 "SR_ISIN" = PyStr s → s ≠ "" →
       first_at isin_key s (standardise_master (master i)) r →
       ∃ m2, (after_step2 i).2 !! n = Some m2
             ∧ (∀ c, c ∈ mc_cols_keep (master_cols i) →
                  m2 !! ("MC_" +:+ c) = Some (get r c))
             ∧ (has_mc_data m2 = true →
                ∃ m, merged (main i) !! n = Some m
                     ∧ ∀ c, c ∈ mc_cols_keep (master_cols i) →
                         m !! ("MC_" +:+ c) = Some (get r c)))
  ∧ (∀ i n m2 r,
       (after_step2 i).2 !! n = Some m2 →
       has_mc_data m2 = false →
       upper (clean (get m2 "CompanyTicker")) ≠ "" →
       first_at symbol_key (upper (clean (get m2 "CompanyTicker")))
         (standardise_master (master i)) r →
       ∃ m, merged (main i) !! n = Some m
            ∧ ∀ c, c ∈ mc_cols_keep (master_cols i) →
                m !! ("MC_" +:+ c) = Some (get r c)).
Proof.
  destruct (lookups_first_at secondary tertiary)
    as (H1 & H2 & H3 & H4 & H5 & H6).
  split_and!; [done..| | | | | |].
  - intros cols p r Hk Hf. rewrite (step1_row_first _ _ _ r) by done.
    split; [done|]. intros c Hc. by apply copy_cols_col.
  - intros cols m s r Hs Hne Hf. rewrite (step2_row_first _ _ _ r s) by done.
    split; [done|]. intros c Hc. by apply copy_cols_col.
  - intros cols m r Hd Hne Hf. rewrite (step3_row_first _ _ _ r) by done.
    split; [done|]. intros c Hc. by apply copy_cols_col.
  - intros i n p r Hp Hk Hf.
    destruct (steps_lookup i n p Hp) as (_ & _ & Hm).
    exists (stage3 i p).1. split; [done|]. intros c Hc.
    rewrite stage3_SR. unfold stage1.
    rewrite (step1_row_first _ _ _ r) by done. by apply copy_cols_col.
  - intros i n m1 s r Hm1 Hs Hne Hf.
    rewrite after_step1_rows, list_lookup_fmap in Hm1.
    apply fmap_Some in Hm1 as (p & Hp & ->).
    destruct (steps_lookup i n p Hp) as (_ & Hm2 & Hm).
    assert (Heq : stage2 i p
                  = (copy_cols "MC_" (mc_cols_keep (master_cols i)) r
                       (stage1 i p).1, true)).
    { unfold stage2. by apply (step2_row_first _ _ _ r s). }
    assert (Hcells : ∀ c, c ∈ mc_cols_keep (master_cols i) →
              (stage2 i p).1 !! ("MC_" +:+ c) = Some (get r c)).
    { intros c Hc. rewrite Heq. by apply copy_cols_col. }
    exists (stage2 i p).1. split_and!; [done..|].
    intros Hd. exists (stage3 i p).1. split; [done|].
    by rewrite (fallback_keeps_rows_with_mc_data i p Hd).
  - intros i n m2 r Hm2 Hd Hne Hf.
    rewrite after_step2_rows, list_lookup_fmap in Hm2.
    apply fmap_Some in Hm2 as (p & Hp & ->).
    destruct (steps_lookup i n p Hp) as (_ & _ & Hm).
    exists (stage3 i p).1. split; [done|]. intros c Hc.
    unfold stage3. rewrite (step3_row_first _ _ _ r) by done.
    by apply copy_cols_col.
Qed.

(** Two secondary rows have the key [("5", "B")]; the merged row of the
    primary row with this key has the ISIN of the first. *)
Lemma first_match_wins_witness :
  ∃ m, merged (main duplicate_input) !! 0 = Some m
       ∧ m !! "SR_ISIN" = Some (PyStr "AU000000ONE1").
Proof.
  destruct (first_match_wins [] [])
    as (_ & _ & _ & _ & _ & _ & _ & _ & _ & H & _).
  destruct (H duplicate_input 0 duplicate_primary
              (clean_secref_row duplicate_first)) as (m & Hm & Hcells).
  - reflexivity.
  - vm_compute. discriminate.
  - exists [], [clean_secref_row duplicate_second].
    split_and!; [reflexivity|vm_compute; reflexivity|].
    intros x Hx. by apply elem_of_nil in Hx.
  - exists m. split; [exact Hm|].
    assert (Hc : "ISIN" ∈ sr_cols_keep (secref_cols duplicate_input))
      by by_compute.
    exact (eq_trans (Hcells "ISIN" Hc) eq_refl).
Defined.
